(** * Motion tracking of contours via camera: a shallow embedding of
      [src/motionTracking.py] and the properties of its per-frame functions.

    The Python module is a thin layer over OpenCV and NumPy.  The embedding
    keeps that split visible:

    - NumPy scalars are IEEE-754 values ([spec_float] of the Standard
      Library): cluster centres are [float32], [math.sqrt] works on doubles;
      the square [** 2] of a scalar, which NumPy leaves to the C library, is
      a parameter ([NumPy]), and so is the way pygame reads the arguments
      of a circle ([Pygame]);
    - OpenCV is an interface ([Cv2]) whose operations are called through a
      small monad that threads the outside world (camera feed, OpenCV's random
      generator) and records every call that is made;
    - Python exceptions are the [Raise] outcome of that monad;
    - [centroidTracking] is given twice: on values, and on a store of mutable
      sequences in which its arguments are references. *)

From Stdlib Require Import ZArith QArith List Ascii String Bool Lia.
From Stdlib.Floats Require Import SpecFloat.
From stdpp Require Import base list.

Open Scope Z_scope.

(* ===================================================================== *)
(** ** Numbers *)
(* ===================================================================== *)

(** A NumPy or Python floating-point scalar. *)
Definition float := spec_float.

(** [np.float32] arithmetic: binary32, round to nearest even. *)
Definition prec32 : Z := 24.
Definition emax32 : Z := 128.

(** Python [float] (C double) arithmetic: binary64. *)
Definition prec64 : Z := 53.
Definition emax64 : Z := 1024.

(** [np.float32(n)] for an integer [n]. *)
Definition f32_of_Z (n : Z) : float := binary_normalize prec32 emax32 n 0 false.

(** A Python float literal with an integral value, such as [1.0]. *)
Definition f64_of_Z (n : Z) : float := binary_normalize prec64 emax64 n 0 false.

Definition f32_sub : float -> float -> float := SFsub prec32 emax32.
Definition f32_add : float -> float -> float := SFadd prec32 emax32.
Definition f32_mul : float -> float -> float := SFmul prec32 emax32.

(** [x ** 2] on a [float32] scalar.  NumPy computes the power of a scalar
    with the C library's [powf], which is accurate but not correctly
    rounded: its result may differ from the rounded product [x * x] in the
    last place, and from one C library to the next.  The square is therefore
    a parameter.  What is assumed of it is what C99 (Annex F.9.4.4) fixes
    for [pow] with the exponent 2: a NaN gives a NaN, and a zero of either
    sign gives [+0]. *)
Class NumPy := {
  f32_pow2 : float -> float;
  f32_pow2_nan : f32_pow2 S754_nan = S754_nan;
  f32_pow2_zero : forall s, f32_pow2 (S754_zero s) = S754_zero false
}.

(** [math.sqrt]: the argument is widened to a double (exactly) and the root
    is taken in binary64. *)
Definition math_sqrt : float -> float := SFsqrt prec64 emax64.

(** [float('inf')]. *)
Definition inf : float := S754_infinity false.

(** [a < b] and [a == b] on scalars; both are [False] as soon as one side is
    a NaN. *)
Definition f_ltb : float -> float -> bool := SFltb.
Definition f_eqb : float -> float -> bool := SFeqb.

Definition is_nan (x : float) : bool :=
  match x with S754_nan => true | _ => false end.

(* ===================================================================== *)
(** ** Points, contours, images *)
(* ===================================================================== *)

(** A row of two coordinates: [i[0]] and [i[1]]. *)
Record Point := mkPoint { px : float; py : float }.

(** An integer pixel position as [cv2.findContours] reports it. *)
Definition IPoint : Type := Z * Z.

(** [cv2.findContours] returns each contour as an array of shape
    [(n, 1, 2)]: entry [i[j]] is a [1 x 2] array whose only row [i[j][0]]
    is the point. *)
Record Entry := mkEntry { row0 : IPoint }.
Definition Contour : Type := list Entry.

(** A single-channel 8-bit image, row by row. *)
Abbreviation GrayImage := (list (list Z)) (only parsing).

(** [np.float32] applied to a list of integer points. *)
Definition np_float32 (pts : list IPoint) : list Point :=
  map (fun p => mkPoint (f32_of_Z (fst p)) (f32_of_Z (snd p))) pts.

(* ===================================================================== *)
(** ** Settings of the module (lines 24-41) *)
(* ===================================================================== *)

Definition contourDetectionPoints : Z := 650.
Definition numRandomContours : Z := 500.
Definition gaussianBlurKSize : Z * Z := (31, 31).
Definition thresholdValue : Z := 5.
Definition thresholdMaxValue : Z := 255.
Definition erodingIter : Z := 4.
Definition dilatingIter : Z := 8.
Definition clusteringIter : Z := 10.
Definition clusteringEpsilon : float := f64_of_Z 1.

(** OpenCV's constants used by the module. *)
Definition TERM_CRITERIA_MAX_ITER : Z := 1.
Definition TERM_CRITERIA_EPS : Z := 2.
Definition KMEANS_RANDOM_CENTERS : Z := 0.

(** The termination criteria handed to [cv2.kmeans]:
    [(type, max_iter, epsilon)]. *)
Definition Criteria : Type := Z * Z * float.

(* ===================================================================== *)
(** ** Outcomes and the call monad *)
(* ===================================================================== *)

Inductive Exn := IndexError | TypeError | cv2_error.

Inductive Outcome (A : Type) :=
| Ok (a : A)
| Raise (e : Exn).
Arguments Ok {A} a.
Arguments Raise {A} e.

(** A computation over a state [S] that returns or raises. *)
Definition StateM (S A : Type) : Type := S -> Outcome A * S.

Definition ret {S A} (a : A) : StateM S A := fun s => (Ok a, s).

Definition raise {S A} (e : Exn) : StateM S A := fun s => (Raise e, s).

Definition bind {S A B} (m : StateM S A) (k : A -> StateM S B) : StateM S B :=
  fun s =>
    match m s with
    | (Ok a, s') => k a s'
    | (Raise e, s') => (Raise e, s')
    end.

Notation "'let*' x ':=' m 'in' k" := (bind m (fun x => k))
  (at level 10, x pattern, m at level 100, k at level 200).

(** The OpenCV operations the module calls.  [Ext] is the state outside the
    program: what the camera will deliver next and OpenCV's random
    generator.  [cv_read] answers [None] when [grabbed] is [False].
    [cv_kmeans] answers [None] when OpenCV rejects the input (it raises
    [cv2.error]); otherwise [(ret, label, center)], the labels flattened as
    [label.ravel()] gives them. *)
Class Cv2 := {
  Ext : Type;
  Camera : Type;
  BGRImage : Type;
  Hierarchy : Type;
  cv_read : Camera -> Ext -> option BGRImage * Ext;
  cv_cvtColor_BGR2GRAY : BGRImage -> GrayImage;
  cv_GaussianBlur : GrayImage -> Z * Z -> Z -> GrayImage;
  cv_threshold_BINARY : GrayImage -> Z -> Z -> GrayImage;
  cv_erode : GrayImage -> GrayImage -> Z -> GrayImage;
  cv_dilate : GrayImage -> GrayImage -> Z -> GrayImage;
  cv_findContours_EXTERNAL_SIMPLE : GrayImage -> list Contour * Hierarchy;
  cv_kmeans : Ext -> list Point -> Z -> Criteria -> Z -> Z ->
              option (float * list Z * list Point) * Ext
}.

(** [cv2.absdiff] on two single-channel 8-bit images: the absolute
    difference pixel by pixel; OpenCV raises when the sizes differ. *)
Fixpoint absdiff_row (a b : list Z) : option (list Z) :=
  match a, b with
  | [], [] => Some []
  | x :: a', y :: b' =>
      match absdiff_row a' b' with
      | Some r => Some (Z.abs (x - y) :: r)
      | None => None
      end
  | _, _ => None
  end.

Fixpoint absdiff (a b : GrayImage) : option GrayImage :=
  match a, b with
  | [], [] => Some []
  | ra :: a', rb :: b' =>
      match absdiff_row ra rb, absdiff a' b' with
      | Some r, Some rest => Some (r :: rest)
      | _, _ => None
      end
  | _, _ => None
  end.

(** The pixel of an image at a row and a column. *)
Definition pixel (img : GrayImage) (r c : nat) : option Z :=
  match img !! r with
  | Some row => row !! c
  | None => None
  end.

(** [np.ones((2, 2), np.uint8)]. *)
Definition np_ones_2_2 : GrayImage := [[1; 1]; [1; 1]].

Section Calls.
Context {cv : Cv2}.

(** One entry per OpenCV call, with the arguments that matter. *)
Inductive Call :=
| CallRead (camera : Camera)
| CallCvtColor (src : BGRImage)
| CallGaussianBlur (src : GrayImage)
| CallAbsdiff (src1 src2 : GrayImage)
| CallThreshold (src : GrayImage)
| CallErode (src : GrayImage)
| CallDilate (src : GrayImage)
| CallFindContours (src : GrayImage)
| CallKmeans (data : list Point) (K : Z).

Record World := mkWorld { ext : Ext; calls : list Call }.

Definition M (A : Type) : Type := StateM World A.

Definition record (c : Call) (w : World) : World :=
  mkWorld (ext w) (calls w ++ [c]).

(** A call of a function of OpenCV that only depends on its arguments. *)
Definition call {A} (c : Call) (r : A) : M A :=
  fun w => (Ok r, record c w).

Definition read (camera : Camera) : M (option BGRImage) :=
  fun w =>
    let (r, e) := cv_read camera (ext w) in
    (Ok r, record (CallRead camera) (mkWorld e (calls w))).

Definition cvtColor (src : BGRImage) : M GrayImage :=
  call (CallCvtColor src) (cv_cvtColor_BGR2GRAY src).

Definition GaussianBlur (src : GrayImage) (ksize : Z * Z) (sigma : Z)
  : M GrayImage :=
  call (CallGaussianBlur src) (cv_GaussianBlur src ksize sigma).

Definition cv2_absdiff (src1 src2 : GrayImage) : M GrayImage :=
  fun w =>
    let w' := record (CallAbsdiff src1 src2) w in
    match absdiff src1 src2 with
    | Some d => (Ok d, w')
    | None => (Raise cv2_error, w')
    end.

Definition threshold (src : GrayImage) (thresh maxval : Z) : M GrayImage :=
  call (CallThreshold src) (cv_threshold_BINARY src thresh maxval).

Definition erode (src kernel : GrayImage) (iterations : Z) : M GrayImage :=
  call (CallErode src) (cv_erode src kernel iterations).

Definition dilate (src kernel : GrayImage) (iterations : Z) : M GrayImage :=
  call (CallDilate src) (cv_dilate src kernel iterations).

Definition findContours (src : GrayImage) : M (list Contour * Hierarchy) :=
  call (CallFindContours src) (cv_findContours_EXTERNAL_SIMPLE src).

Definition kmeans (data : list Point) (K : Z) (criteria : Criteria)
    (attempts flags : Z) : M (float * list Z * list Point) :=
  fun w =>
    let (r, e) := cv_kmeans (ext w) data K criteria attempts flags in
    let w' := record (CallKmeans data K) (mkWorld e (calls w)) in
    match r with
    | Some res => (Ok res, w')
    | None => (Raise cv2_error, w')
    end.
End Calls.

(* ===================================================================== *)
(** ** [imageProcessing] (lines 80-110) *)
(* ===================================================================== *)

Section Pipeline.
Context {cv : Cv2}.

(** The list [frames] of line 109. *)
Record Frames := mkFrames {
  frame0 : BGRImage;
  frame1 : GrayImage;
  frame2 : GrayImage;
  frame3 : GrayImage;
  frame4 : GrayImage;
  frame5 : GrayImage
}.

(** The five values [imageProcessing] returns:
    [master, contours, hierarchy, frames, status]. *)
Definition Processed : Type :=
  option GrayImage * option (list Contour) * option Hierarchy *
  option Frames * string.

Definition imageProcessing (camera : Camera) (master : option GrayImage)
  : M Processed :=
  let* grabbed_frame0 := read camera in
  match grabbed_frame0 with
  | None => ret (None, None, None, None, "break"%string)
  | Some frame0 =>
      let* frame1 := cvtColor frame0 in
      let* frame2 := GaussianBlur frame1 gaussianBlurKSize 0 in
      match master with
      | None =>
          let master := frame2 in
          ret (Some master, None, None, None, "continue"%string)
      | Some master =>
          let* frame3 := cv2_absdiff master frame2 in
          let* frame4 := threshold frame3 thresholdValue thresholdMaxValue in
          let kernel := np_ones_2_2 in
          let* frame5 := erode frame4 kernel erodingIter in
          let* frame5 := dilate frame5 kernel dilatingIter in
          let* contours_hierarchy := findContours frame5 in
          let master := frame2 in
          let frames := mkFrames frame0 frame1 frame2 frame3 frame4 frame5 in
          ret (Some master, Some (fst contours_hierarchy),
               Some (snd contours_hierarchy), Some frames, "None"%string)
      end
  end.

(* =================================================================== *)
(** ** [clusterParams] (lines 114-125) *)
(* =================================================================== *)

(** [criteria, clusterNumber, clusterA, clusterB, center, []]. *)
Definition clusterParams (multiTouch : bool)
  : Criteria * Z * list IPoint * list IPoint * list IPoint * list IPoint :=
  let criteria :=
    (TERM_CRITERIA_EPS + TERM_CRITERIA_MAX_ITER, clusteringIter,
     clusteringEpsilon) in
  let clusterA := [(0, 0)] in
  let clusterB := [(0, 0)] in
  let center := [(0, 0); (0, 0)] in
  let clusterNumber := 1 in
  let clusterNumber := if multiTouch then 2 else clusterNumber in
  (criteria, clusterNumber, clusterA, clusterB, center, []).

(* =================================================================== *)
(** ** [contourClustering] (lines 129-149) *)
(* =================================================================== *)

(** Lines 137-140: every point of every contour, in order. *)
Definition contourCoordinates (contours : list Contour) : list IPoint :=
  flat_map (fun i => map row0 i) contours.

(** [label.ravel() == k]. *)
Definition label_is (k : Z) (label : list Z) : list bool :=
  map (fun l => l =? k) label.

(** [a[mask]] for a boolean mask: the rows where the mask holds; NumPy
    raises [IndexError] when the mask is not as long as [a]. *)
Fixpoint select {A} (a : list A) (mask : list bool) : list A :=
  match a, mask with
  | x :: a', b :: mask' =>
      if b then x :: select a' mask' else select a' mask'
  | _, _ => []
  end.

Definition index_mask {A} (a : list A) (mask : list bool) : M (list A) :=
  if (length mask =? length a)%nat then ret (select a mask)
  else raise IndexError.

(** [clusterA, clusterB, center, ret]. *)
Definition contourClustering (contours : list Contour) (criteria : Criteria)
    (clusterNumber : Z) (multiTouch : bool)
  : M (list Point * list Point * list Point * float) :=
  let contourCoordinates := np_float32 (contourCoordinates contours) in
  let* ret_label_center :=
    kmeans contourCoordinates clusterNumber criteria 10
           KMEANS_RANDOM_CENTERS in
  let '(ret_, label, center) := ret_label_center in
  let* clusterA := index_mask contourCoordinates (label_is 0 label) in
  let clusterB := [] in
  let* clusterB :=
    if multiTouch then index_mask contourCoordinates (label_is 1 label)
    else ret clusterB in
  ret (clusterA, clusterB, center, ret_).
End Pipeline.

(* ===================================================================== *)
(** ** [centroidTracking] (lines 153-179), on values *)
(* ===================================================================== *)

Section Tracking.
Context {np : NumPy}.

(** Lines 168-169: the distance of candidate [i] from [previousCenter[0]].
    The rows are [float32] rows, as [cv2.kmeans] returns its centres; the
    [[0, 0]] rows [clusterParams] starts the tracking with are read as
    [float32] zeros.  The differences, squares and their sum are [float32]
    operations, the square root is taken on the double. *)
Definition distance (p0 i : Point) : float :=
  math_sqrt (f32_add (f32_pow2 (f32_sub (px p0) (px i)))
                     (f32_pow2 (f32_sub (py p0) (py i)))).

(** [(a == b).all()] on two rows. *)
Definition all_eq (a b : Point) : bool :=
  f_eqb (px a) (px b) && f_eqb (py a) (py b).

(** What the loop of lines 167-172 carries:
    [minDistance], [distanceListCenter], [minCoordinatesCenter]. *)
Definition Search : Type := float * list float * Point.

(** [distanceListCenter[-1]]; the list is never empty where it is read. *)
Definition last_distance (l : list float) : float := List.last l S754_nan.

(** One turn of the loop of lines 167-172. *)
Definition search_step (p0 : Point) (st : Search) (i : Point) : Search :=
  let '(minDistance, distanceListCenter, minCoordinatesCenter) := st in
  let distanceListCenter := distanceListCenter ++ [distance p0 i] in
  if f_ltb (last_distance distanceListCenter) minDistance
  then (last_distance distanceListCenter, distanceListCenter, i)
  else (minDistance, distanceListCenter, minCoordinatesCenter).

(** Lines 165-166: the state before the loop; [minCoordinatesCenter] starts
    as [[0, 0]]. *)
Definition search_init : Search :=
  (inf, [], mkPoint (f32_of_Z 0) (f32_of_Z 0)).

(** [None] stands for the [IndexError] of an index that is out of range.
    The two clusters are only handed through, whatever they are.  The rows
    of [center] are arrays, as [cv2.kmeans] returns them and as a swap
    leaves them: line 174 then compares element by element.  (Were they
    Python lists, line 174 would compare two lists to one [bool] and [.all()]
    would raise [AttributeError]; such a [center] is not a [list Point].) *)
Definition centroidTracking {C : Type} (clusterA clusterB : C)
    (center previousCenter : list Point) : option (C * C * list Point) :=
  match center !! 0%nat, center !! 1%nat, previousCenter !! 1%nat with
  | Some center_0, Some center_1, Some previousCenter_1 =>
      let comparisonCenterCoordinates :=
        [] ++ [center_0; center_1; previousCenter_1] in
      match previousCenter !! 0%nat with
      | Some previousCenter_0 =>
          let '(_, _, minCoordinatesCenter) :=
            fold_left (search_step previousCenter_0)
                      comparisonCenterCoordinates search_init in
          match comparisonCenterCoordinates !! 1%nat with
          | Some comparison_1 =>
              if all_eq minCoordinatesCenter comparison_1
              then Some (clusterB, clusterA, [center_1; center_0])
              else Some (clusterA, clusterB, center)
          | None => None
          end
      | None => None
      end
  | _, _, _ => None
  end.
End Tracking.

(* ===================================================================== *)
(** ** [centroidTracking] (lines 153-179), on a store *)
(* ===================================================================== *)

(** Python passes references: the lists and arrays the function receives
    are objects that its caller still holds.  An object is a row of two
    scalars or a sequence of values; a two-dimensional array is taken as
    the sequence of its rows.  The store is the list of all objects, a
    reference is a position in it. *)
Abbreviation Loc := nat (only parsing).

Inductive Val :=
| VFloat (f : float)
| VRef (l : Loc).

Inductive Obj :=
| ORow (p : Point)
| OSeq (items : list Val).

Abbreviation Store := (list Obj) (only parsing).

(** A list display or a fresh array: the new object gets the next free
    position. *)
Definition new (o : Obj) : StateM Store Val :=
  fun s => (Ok (VRef (length s)), s ++ [o]).

(** [v[k]] for a constant index [k >= 0]. *)
Definition obj_getitem (o : Obj) (k : nat) : option Val :=
  match o with
  | ORow p =>
      match k with
      | O => Some (VFloat (px p))
      | S O => Some (VFloat (py p))
      | _ => None
      end
  | OSeq items => items !! k
  end.

Definition getitem (v : Val) (k : nat) : StateM Store Val :=
  fun s =>
    match v with
    | VFloat _ => (Raise TypeError, s)
    | VRef l =>
        match s !! l with
        | Some o =>
            match obj_getitem o k with
            | Some x => (Ok x, s)
            | None => (Raise IndexError, s)
            end
        | None => (Raise TypeError, s)
        end
    end.

(** [v[-1]] on a list. *)
Definition getitem_last (v : Val) : StateM Store Val :=
  fun s =>
    match v with
    | VRef l =>
        match s !! l with
        | Some (OSeq items) =>
            match List.last (map Some items) None with
            | Some x => (Ok x, s)
            | None => (Raise IndexError, s)
            end
        | _ => (Raise TypeError, s)
        end
    | VFloat _ => (Raise TypeError, s)
    end.

(** [v.extend(xs)], and [v.append(x)] as [extend] with one element: the
    object at the position of [v] is replaced by the longer one. *)
Definition extend (v : Val) (xs : list Val) : StateM Store unit :=
  fun s =>
    match v with
    | VRef l =>
        match s !! l with
        | Some (OSeq items) => (Ok tt, <[l := OSeq (items ++ xs)]> s)
        | _ => (Raise TypeError, s)
        end
    | VFloat _ => (Raise TypeError, s)
    end.

Definition append (v : Val) (x : Val) : StateM Store unit := extend v [x].

(** The elements a [for] loop over the list [v] visits. *)
Definition elements (v : Val) : StateM Store (list Val) :=
  fun s =>
    match v with
    | VRef l =>
        match s !! l with
        | Some (OSeq items) => (Ok items, s)
        | _ => (Raise TypeError, s)
        end
    | VFloat _ => (Raise TypeError, s)
    end.

(** A value used as a number. *)
Definition scalar (v : Val) : StateM Store float :=
  match v with
  | VFloat f => ret f
  | VRef _ => raise TypeError
  end.

(** The row a value refers to. *)
Definition row (v : Val) : StateM Store Point :=
  fun s =>
    match v with
    | VRef l =>
        match s !! l with
        | Some (ORow p) => (Ok p, s)
        | _ => (Raise TypeError, s)
        end
    | VFloat _ => (Raise TypeError, s)
    end.

(** [(a == b).all()]. *)
Definition all_eq_at (a b : Val) : StateM Store bool :=
  let* pa := row a in
  let* pb := row b in
  ret (all_eq pa pb).

(** A [for] loop that carries [acc] from one turn to the next. *)
Fixpoint for_each {A} (xs : list Val) (body : A -> Val -> StateM Store A)
    (acc : A) : StateM Store A :=
  match xs with
  | [] => ret acc
  | i :: xs' => let* acc' := body acc i in for_each xs' body acc'
  end.

Section TrackingStore.
Context {np : NumPy}.

(** Lines 168-172: the body of the loop; it carries [minDistance] and
    [minCoordinatesCenter]. *)
Definition search_body (previousCenter distanceListCenter : Val)
    (acc : float * Val) (i : Val) : StateM Store (float * Val) :=
  let '(minDistance, minCoordinatesCenter) := acc in
  let* p0 := getitem previousCenter 0 in
  let* p00 := getitem p0 0 in
  let* p00 := scalar p00 in
  let* i0 := getitem i 0 in
  let* i0 := scalar i0 in
  let* p0' := getitem previousCenter 0 in
  let* p01 := getitem p0' 1 in
  let* p01 := scalar p01 in
  let* i1 := getitem i 1 in
  let* i1 := scalar i1 in
  let d := math_sqrt (f32_add (f32_pow2 (f32_sub p00 i0))
                              (f32_pow2 (f32_sub p01 i1))) in
  let* _ := append distanceListCenter (VFloat d) in
  let* last := getitem_last distanceListCenter in
  let* last := scalar last in
  if f_ltb last minDistance then
    let* last' := getitem_last distanceListCenter in
    let* last' := scalar last' in
    ret (last', i)
  else ret (minDistance, minCoordinatesCenter).

Definition centroidTracking_store (clusterA clusterB center previousCenter : Val)
  : StateM Store (Val * Val * Val) :=
  let* comparisonCenterCoordinates := new (OSeq []) in
  let* center_0 := getitem center 0 in
  let* center_1 := getitem center 1 in
  let* previousCenter_1 := getitem previousCenter 1 in
  let* _ := extend comparisonCenterCoordinates
                   [center_0; center_1; previousCenter_1] in
  let minDistance := inf in
  let* distanceListCenter := new (OSeq []) in
  let* minCoordinatesCenter :=
    new (ORow (mkPoint (f32_of_Z 0) (f32_of_Z 0))) in
  let* candidates := elements comparisonCenterCoordinates in
  let* found :=
    for_each candidates (search_body previousCenter distanceListCenter)
             (minDistance, minCoordinatesCenter) in
  let minCoordinatesCenter := snd found in
  let* comparison_1 := getitem comparisonCenterCoordinates 1 in
  let* swap := all_eq_at minCoordinatesCenter comparison_1 in
  if swap then
    let tmpClusterA := clusterA in
    let clusterA := clusterB in
    let clusterB := tmpClusterA in
    let* center_1' := getitem center 1 in
    let* center_0' := getitem center 0 in
    let* center := new (OSeq [center_1'; center_0']) in
    ret (clusterA, clusterB, center)
  else ret (clusterA, clusterB, center).
End TrackingStore.

(** What a reference to a sequence of rows stands for. *)
Definition read_row (s : Store) (v : Val) : option Point :=
  match v with
  | VRef l => match s !! l with Some (ORow p) => Some p | _ => None end
  | VFloat _ => None
  end.

Fixpoint read_all (s : Store) (vs : list Val) : option (list Point) :=
  match vs with
  | [] => Some []
  | v :: vs' =>
      match read_row s v, read_all s vs' with
      | Some p, Some ps => Some (p :: ps)
      | _, _ => None
      end
  end.

Definition read_rows (s : Store) (v : Val) : option (list Point) :=
  match v with
  | VRef l =>
      match s !! l with
      | Some (OSeq items) => read_all s items
      | _ => None
      end
  | VFloat _ => None
  end.

(* ===================================================================== *)
(** ** The nearest candidate *)
(* ===================================================================== *)

(** The position of the nearest candidate: the argmin of the distances
    taken in order.  A distance replaces the current minimum only when it
    is strictly smaller, so on a tie the earlier position stays; the search
    starts from infinity, as line 165 does, and answers [None] when no
    distance is below infinity. *)
Fixpoint argmin_from (minDistance : float) (best : option nat) (k : nat)
    (ds : list float) : option nat :=
  match ds with
  | [] => best
  | d :: ds' =>
      if f_ltb d minDistance then argmin_from d (Some k) (S k) ds'
      else argmin_from minDistance best (S k) ds'
  end.

Definition argmin (ds : list float) : option nat := argmin_from inf None 0 ds.

Definition nearest {np : NumPy} (p0 : Point) (candidates : list Point)
  : option nat :=
  argmin (map (distance p0) candidates).

(** The number of boundary points of a set of contours. *)
Definition total_points (contours : list Contour) : Z :=
  fold_right (fun i n => Z.of_nat (length i) + n) 0 contours.

(* ===================================================================== *)
(** ** A test double of OpenCV *)
(* ===================================================================== *)

(** Used where a statement is evaluated on concrete data.  The feed is the
    list of frames still to come; colour conversion, blurring and the
    morphological operations leave the image as it is; [kmeans] puts every
    point into cluster 0 and reports the first point as every centre, and
    rejects fewer points than clusters. *)
Definition stub_read (_ : unit) (feed : list GrayImage)
  : option GrayImage * list GrayImage :=
  match feed with
  | [] => (None, [])
  | f :: rest => (Some f, rest)
  end.

Definition stub_threshold (src : GrayImage) (thresh maxval : Z) : GrayImage :=
  map (map (fun v => if thresh <? v then maxval else 0)) src.

Definition stub_kmeans (feed : list GrayImage) (data : list Point) (K : Z)
    (_ : Criteria) (_ _ : Z)
  : option (float * list Z * list Point) * list GrayImage :=
  match data with
  | [] => (None, feed)
  | p :: _ =>
      if K <=? Z.of_nat (length data)
      then (Some (f64_of_Z 0, map (fun _ => 0) data,
                  repeat p (Z.to_nat K)), feed)
      else (None, feed)
  end.

Definition stub_cv2 : Cv2 := {|
  Ext := list GrayImage;
  Camera := unit;
  BGRImage := GrayImage;
  Hierarchy := unit;
  cv_read := stub_read;
  cv_cvtColor_BGR2GRAY := fun src => src;
  cv_GaussianBlur := fun src _ _ => src;
  cv_threshold_BINARY := stub_threshold;
  cv_erode := fun src _ _ => src;
  cv_dilate := fun src _ _ => src;
  cv_findContours_EXTERNAL_SIMPLE := fun _ => ([], tt);
  cv_kmeans := stub_kmeans
|}.

(** A test double of the square: the correctly rounded product.  It obeys
    the two laws, and it is what an accurate [powf] returns wherever the
    square is itself a [float32] value, as it is for the rows of the
    examples of this file (small integers and powers of two). *)
Definition exact_squares : NumPy := {|
  f32_pow2 := fun x => f32_mul x x;
  f32_pow2_nan := eq_refl;
  f32_pow2_zero := fun s => match s with true => eq_refl | false => eq_refl end
|}.

(** A point with integral coordinates. *)
Definition pt (x y : Z) : Point := mkPoint (f32_of_Z x) (f32_of_Z y).

(** [np.float32(m * 2 ** e)]. *)
Definition f32_dyadic (m e : Z) : float := binary_normalize prec32 emax32 m e false.

(** The world of the test double before any call, with the frames to come. *)
Definition stub_world (feed : list GrayImage) : World (cv := stub_cv2) :=
  mkWorld (cv := stub_cv2) feed [].

(** The criteria [clusterParams] builds. *)
Definition default_criteria : Criteria :=
  (TERM_CRITERIA_EPS + TERM_CRITERIA_MAX_ITER, clusteringIter,
   clusteringEpsilon).

(** One contour of [n] points along a row of the image. *)
Definition row_contour (n : nat) : Contour :=
  map (fun x => mkEntry (Z.of_nat x, 7)) (seq 0 n).

(* ===================================================================== *)
(** ** Python numbers and their conversions *)
(* ===================================================================== *)

(** The exceptions of the code outside the tracking functions. *)
Inductive PyExn :=
| PyIndexError
| PyTypeError
| PyValueError
| PyOverflowError
| PyUnicodeDecodeError.

Inductive Try (A : Type) :=
| Done (a : A)
| Fail (e : PyExn).
Arguments Done {A} a.
Arguments Fail {A} e.

(** A computation over a state [S] that returns or raises. *)
Definition Eff (S A : Type) : Type := S -> Try A * S.

Definition eff_ret {S A} (a : A) : Eff S A := fun s => (Done a, s).

Definition eff_fail {S A} (e : PyExn) : Eff S A := fun s => (Fail e, s).

Definition eff_bind {S A B} (m : Eff S A) (k : A -> Eff S B) : Eff S B :=
  fun s =>
    match m s with
    | (Done a, s') => k a s'
    | (Fail e, s') => (Fail e, s')
    end.

Notation "'do*' x ':=' m 'in' k" := (eff_bind m (fun x => k))
  (at level 10, x pattern, m at level 100, k at level 200).

(** A value that does not touch the state, or the exception it raised. *)
Definition lift {S A} (t : Try A) : Eff S A := fun s => (t, s).

(** A Python number: an [int] or a [float]. *)
Inductive PyNum :=
| PyInt (n : Z)
| PyFloat (x : float).

(** The integer part of a finite scalar, towards zero. *)
Definition trunc (x : float) : Z :=
  match x with
  | S754_finite s m e =>
      let v := if 0 <=? e then Zpos m * 2 ^ e else Zpos m / 2 ^ (- e) in
      if s then - v else v
  | _ => 0
  end.

(** The nearest integer of a finite scalar, the even one on a tie. *)
Definition round_half_even (x : float) : Z :=
  match x with
  | S754_finite s m e =>
      let v :=
        if 0 <=? e then Zpos m * 2 ^ e
        else
          let d := 2 ^ (- e) in
          let q := Zpos m / d in
          let r := Zpos m mod d in
          match 2 * r ?= d with
          | Lt => q
          | Gt => q + 1
          | Eq => if Z.even q then q else q + 1
          end in
      if s then - v else v
  | _ => 0
  end.

(** A float made an integer: Python raises [ValueError] on a NaN and
    [OverflowError] on an infinity. *)
Definition to_int (conv : float -> Z) (x : float) : Try Z :=
  match x with
  | S754_nan => Fail PyValueError
  | S754_infinity _ => Fail PyOverflowError
  | _ => Done (conv x)
  end.

(** [int(v)]. *)
Definition py_int (v : PyNum) : Try Z :=
  match v with
  | PyInt n => Done n
  | PyFloat x => to_int trunc x
  end.

(** [int(round(x))] on a float. *)
Definition int_round (x : float) : Try Z := to_int round_half_even x.

(* ===================================================================== *)
(** ** [decode_fourcc] (lines 53-58) *)
(* ===================================================================== *)

(** [chr(n)] for [0 <= n < 256]. *)
Definition chr (n : Z) : Ascii.ascii := Ascii.ascii_of_N (Z.to_N n).

(** [range(4)]. *)
Definition range4 : list Z := [0; 1; 2; 3].

Definition decode_fourcc (cc : PyNum) : Try string :=
  match py_int cc with
  | Done n =>
      Done (string_of_list_ascii
              (map (fun i => chr (Z.land (Z.shiftr n (8 * i)) 255)) range4))
  | Fail e => Fail e
  end.

(** A C [int]: 32 bits, two's complement. *)
Definition to_int32 (n : Z) : Z := (n + 2 ^ 31) mod 2 ^ 32 - 2 ^ 31.

(** The first byte of the UTF-8 encoding of a character of code below 256:
    the code itself for an ASCII character, [0xC2] or [0xC3] for the
    others. *)
Definition utf8_first_byte (c : Ascii.ascii) : Z :=
  let n := Z.of_N (Ascii.N_of_ascii c) in
  if n <? 128 then n else Z.lor 192 (Z.shiftr n 6).

(** [cv2.VideoWriter_fourcc(c1, c2, c3, c4)] of line 73, for four strings
    of one character each.  The Python binding hands OpenCV a C [char] for
    each of them, the first byte of its UTF-8 encoding; OpenCV's [CV_FOURCC]
    packs the four bytes into an [int], the first one lowest. *)
Definition VideoWriter_fourcc (c1 c2 c3 c4 : Ascii.ascii) : Z :=
  let code c := Z.land (utf8_first_byte c) 255 in
  to_int32 (code c1 + Z.shiftl (code c2) 8 + Z.shiftl (code c3) 16 +
            Z.shiftl (code c4) 24).

(** A character of the ASCII range. *)
Definition is_ascii (c : Ascii.ascii) : bool :=
  (Ascii.N_of_ascii c <? 128)%N.

(** What [camera.get] hands back for an integral property: a double. *)
Definition camera_get_value (n : Z) : PyNum := PyFloat (f64_of_Z n).

(* ===================================================================== *)
(** ** The display functions (lines 183-259) *)
(* ===================================================================== *)

Definition Color : Type := Z * Z * Z.
Definition WHITE : Color := (255, 255, 255).
Definition BLACK : Color := (0, 0, 0).
Definition GREY : Color := (210, 210, 210).
Definition RED : Color := (255, 0, 0).
Definition GREEN : Color := (20, 255, 140).
Definition BLUE : Color := (0, 0, 255).
Definition GOLD : Color := (255, 215, 0).
Definition SILVER : Color := (192, 192, 192).

(** The range of a C [int] of 32 bits. *)
Definition c_int (n : Z) : bool := (- 2 ^ 31 <=? n) && (n <? 2 ^ 31).

(** [pygame.draw.circle] reads the centre and the radius as C integers.
    A centre within the range of a 32-bit [int] and a radius within it that
    is not negative are taken as they are by every version of pygame.
    What happens to other values depends on the version and the platform
    (pygame 2 raises [TypeError] for a value that does not fit a C [long]
    and cuts a smaller one down to an [int]; pygame 1.9 raises
    [OverflowError], and [ValueError] for a negative radius), so the reading
    of the arguments is a parameter: [circle_args] gives the centre and the
    radius the circle is drawn with, or the exception raised. *)
Class Pygame := {
  circle_args : Z * Z -> Z -> Try (Z * Z * Z);
  circle_args_int : forall x y r,
    c_int x && c_int y && c_int r && (0 <=? r) = true ->
    circle_args (x, y) r = Done (x, y, r)
}.

Section Display.
Context {F : Type} {pg : Pygame}.

(** An element of the list [data] the caller hands to the display
    functions: an array of rows (a cluster, the centres) or the list of
    frames; [F] is what a frame is. *)
Inductive Item :=
| IPoints (pts : list Point)
| IFrames (frames : list F).

(** The calls that put something on the screen, with the arguments the
    library works with: a [pygame.draw.circle] or a [cv2.imshow]. *)
Inductive Shown :=
| Circle (color : Color) (center : Z * Z) (radius : Z)
| Imshow (winname : string) (mat : F).

Definition Display (A : Type) : Type := Eff (list Shown) A.

(** [data[k]] used as an array of rows. *)
Definition rows_at (data : list Item) (k : nat) : Try (list Point) :=
  match data !! k with
  | Some (IPoints pts) => Done pts
  | Some (IFrames _) => Fail PyTypeError
  | None => Fail PyIndexError
  end.

(** [data[k]] used as the list of frames. *)
Definition frames_at (data : list Item) (k : nat) : Try (list F) :=
  match data !! k with
  | Some (IFrames fs) => Done fs
  | Some (IPoints _) => Fail PyTypeError
  | None => Fail PyIndexError
  end.

(** [a[i]] for a constant or loop index [i >= 0]. *)
Definition item {A} (a : list A) (i : nat) : Try A :=
  match a !! i with
  | Some x => Done x
  | None => Fail PyIndexError
  end.

(** [pygame.draw.circle(screen, color, (int(round(p[0])), int(round(p[1]))),
    radius)]: both coordinates are rounded before the call is made, and
    pygame reads its arguments before anything is drawn. *)
Definition draw_circle (color : Color) (p : Point) (radius : Z)
  : Display unit :=
  do* x := lift (int_round (px p)) in
  do* y := lift (int_round (py p)) in
  do* args := lift (circle_args (x, y) radius) in
  let '(cx, cy, r) := args in
  fun scr => (Done tt, scr ++ [Circle color (cx, cy) r]).

(** [for i in range(n): draw data[k][i]], the loops of lines 191 and 195. *)
Fixpoint draw_rows (data : list Item) (k : nat) (color : Color)
    (range : list nat) : Display unit :=
  match range with
  | [] => eff_ret tt
  | i :: range' =>
      do* pts := lift (rows_at data k) in
      do* p := lift (item pts i) in
      do* _ := draw_circle color p 1 in
      draw_rows data k color range'
  end.

Definition displayContours (data : list Item) (sContours multiTouch : bool)
  : Display unit :=
  if sContours then
    do* cluster := lift (rows_at data 2) in
    do* _ := draw_rows data 2 RED (seq 0 (length cluster)) in
    if multiTouch then
      do* cluster := lift (rows_at data 3) in
      draw_rows data 3 BLUE (seq 0 (length cluster))
    else eff_ret tt
  else eff_ret tt.

(** [minCoordinatesClusterB] may be [None] when there is one touch only. *)
Definition displayInput (minCoordinatesClusterA : Point)
    (minCoordinatesClusterB : option Point) (inputSize : Z)
    (multiTouch : bool) : Display unit :=
  do* _ := draw_circle RED minCoordinatesClusterA inputSize in
  if multiTouch then
    match minCoordinatesClusterB with
    | Some b => draw_circle BLUE b inputSize
    | None => eff_fail PyTypeError
    end
  else eff_ret tt.

Definition displayCentroid (data : list Item)
    (sContours sCentroid : bool) (cSize : Z) (multiTouch : bool)
  : Display unit :=
  if sCentroid then
    let cidx := 4%nat in
    let cidx := if negb sContours then 2%nat else cidx in
    do* rows := lift (rows_at data cidx) in
    do* row_0 := lift (item rows 0) in
    do* _ := draw_circle GOLD row_0 cSize in
    if multiTouch then
      do* rows := lift (rows_at data cidx) in
      do* row_1 := lift (item rows 1) in
      draw_circle GOLD row_1 cSize
    else eff_ret tt
  else eff_ret tt.

(** [cv2.imshow(winname, data[fidx][k])]. *)
Definition imshow (winname : string) (data : list Item) (fidx k : nat)
  : Display unit :=
  do* frames := lift (frames_at data fidx) in
  do* mat := lift (item frames k) in
  fun scr => (Done tt, scr ++ [Imshow winname mat]).

Definition displayAllFrames (data : list Item)
    (sContours sCentroid dFrames : bool) : Display unit :=
  if dFrames then
    let fidx := 5%nat in
    let fidx := if negb sContours then 3%nat else fidx in
    let fidx := if negb sCentroid then 4%nat else fidx in
    let fidx := if negb sContours && negb sCentroid then 2%nat else fidx in
    do* _ := imshow "Frame0: Raw" data fidx 0 in
    do* _ := imshow "Frame1: Gray" data fidx 1 in
    do* _ := imshow "Frame2: Blur" data fidx 2 in
    do* _ := imshow "Frame3: Delta" data fidx 3 in
    do* _ := imshow "Frame4: Threshold" data fidx 4 in
    imshow "Frame5: Dialated" data fidx 5
  else eff_ret tt.

(** The list [data] the three display functions agree on: two entries
    they never look at, then the two clusters when contours are shown, the
    centres when the centroid is shown, and the frames. *)
Definition layout (first second : Item) (sContours sCentroid : bool)
    (clusterA clusterB center : list Point) (frames : list F) : list Item :=
  [first; second] ++
  (if sContours then [IPoints clusterA; IPoints clusterB] else []) ++
  (if sCentroid then [IPoints center] else []) ++
  [IFrames frames].
End Display.

(** The circle a row is drawn as. *)
Definition circle_of {F} (color : Color) (radius : Z) (p : Point) : Shown (F := F) :=
  Circle color (round_half_even (px p), round_half_even (py p)) radius.

(** A scalar that is neither a NaN nor an infinity. *)
Definition is_finite (x : float) : bool :=
  match x with
  | S754_nan | S754_infinity _ => false
  | _ => true
  end.

(** A row of finite scalars whose rounded coordinates fit a C [int]. *)
Definition drawable (p : Point) : bool :=
  is_finite (px p) && is_finite (py p) &&
  c_int (round_half_even (px p)) && c_int (round_half_even (py p)).

(** A radius that fits a C [int] and is not negative. *)
Definition radius_ok (r : Z) : bool := c_int r && (0 <=? r).

(** A test double of pygame: the arguments are taken as they are within the
    range of a C [int], and [TypeError] is raised beyond it, as pygame 2
    does where a C [long] has 32 bits. *)
Definition stub_pygame : Pygame.
Proof.
  refine {| circle_args := fun c r =>
              if c_int (fst c) && c_int (snd c) && c_int r
              then Done (c, r) else Fail PyTypeError |}.
  intros x y r H. apply andb_prop in H as [H _]. simpl. now rewrite H.
Defined.

(* ===================================================================== *)
(** ** [mqttService.py] *)
(* ===================================================================== *)

(** A Python [str]: its code points. *)
Abbreviation Text := (list N) (only parsing).

(** [','] *)
Definition comma : N := 44.

(** [s.split(sep)] for a separator of one character: the pieces between
    the separators, empty pieces included. *)
Fixpoint split (sep : N) (s : Text) : list Text :=
  match s with
  | [] => [[]]
  | c :: s' =>
      if (c =? sep)%N then [] :: split sep s'
      else
        match split sep s' with
        | piece :: pieces => (c :: piece) :: pieces
        | [] => [[c]]
        end
  end.

(** Line 12. *)
Definition updateService : Z := 10.

(** The class [MQTTService] (lines 34-47). *)
Record MQTTService := mkMQTTService {
  state : Z;
  mood : option Text;
  engagement : option Text
}.

(** [MQTTService.__init__]. *)
Definition MQTTService_init : MQTTService := mkMQTTService 1 None None.

(** [MQTTService.update]. *)
Definition update (self : MQTTService) : MQTTService :=
  mkMQTTService (state self + 1) (mood self) (engagement self).

(** The module's global [mqttServ] and the seconds the subscriber thread
    has slept, call by call. *)
Record Subscriber := mkSubscriber {
  mqttServ : MQTTService;
  slept : list Z
}.

Section Mqtt.
(** [bytes.decode()]: the text of a payload, or [None] where Python raises
    [UnicodeDecodeError]. *)
Variable decode : list Z -> option Text.

(** [on_message] (lines 26-30), for the payload of the message. *)
Definition on_message (payload : list Z) : Eff Subscriber unit :=
  fun w =>
    match decode payload with
    | None => (Fail PyUnicodeDecodeError, w)
    | Some pse_output_msg =>
        match split comma pse_output_msg with
        | [mood_; engagement_] =>
            (Done tt,
             mkSubscriber
               (mkMQTTService (state (mqttServ w)) (Some mood_)
                              (Some engagement_))
               (slept w ++ [updateService]))
        | _ => (Fail PyValueError, w)
        end
    end.

End Mqtt.

(* ===================================================================== *)
(** ** Further notions the statements use *)
(* ===================================================================== *)

(** The centre pair [clusterParams] returns, with which the tracking
    starts. *)
Definition initial_center (multiTouch : bool) : list IPoint :=
  snd (fst (clusterParams multiTouch)).

(** The rational a finite scalar stands for. *)
Definition exact (x : float) : Q :=
  match x with
  | S754_finite s m e =>
      let v :=
        if 0 <=? e then inject_Z (Zpos m * 2 ^ e)
        else Qmake (Zpos m) (Z.to_pos (2 ^ (- e))) in
      if s then Qopp v else v
  | _ => inject_Z 0
  end.

(** The square of the Euclidean distance of two rows of finite scalars,
    with no rounding. *)
Definition euclid2 (p q : Point) : Q :=
  Qplus (Qpower (Qminus (exact (px p)) (exact (px q))) 2)
        (Qpower (Qminus (exact (py p)) (exact (py q))) 2).

(** A pixel position that [float32] holds exactly. *)
Definition exact_pixel (p : IPoint) : Prop :=
  Z.abs (fst p) < 2 ^ 24 /\ Z.abs (snd p) < 2 ^ 24.

(** A call that takes a frame off the camera. *)
Definition is_read {cv : Cv2} (c : Call) : bool :=
  match c with CallRead _ => true | _ => false end.

(** A test double of [bytes.decode()]: the text of a payload of ASCII
    bytes, nothing for any other payload. *)
Definition ascii_decode (payload : list Z) : option Text :=
  if forallb (fun b => (0 <=? b) && (b <? 128)) payload
  then Some (map Z.to_N payload)
  else None.

(* ===================================================================== *)
(** ** Notions used by the proofs *)
(* ===================================================================== *)

(** The order of [SFcompare] read off three integers: class, exponent,
    mantissa. *)
Definition rank (x : float) : Z * Z * Z :=
  match x with
  | S754_zero _ => (0, 0, 0)
  | S754_infinity s => (if s then -2 else 2, 0, 0)
  | S754_nan => (0, 0, 0)
  | S754_finite s m e => if s then (-1, - e, - Zpos m) else (1, e, Zpos m)
  end.

Definition rank_lt (a b : Z * Z * Z) : Prop :=
  let '(a1, a2, a3) := a in
  let '(b1, b2, b3) := b in
  a1 < b1 \/ (a1 = b1 /\ (a2 < b2 \/ (a2 = b2 /\ a3 < b3))).

(** [s] still holds every object of [base], unchanged and in place. *)
Definition extends (base s : Store) : Prop := exists more, s = base ++ more.

(** A reference made after [base] was taken. *)
Definition fresh (base : Store) (v : Val) : Prop :=
  exists l, v = VRef l /\ (length base <= l)%nat.

(** Run from a store that extends [base], [m] ends in one that does, and
    what it returns satisfies [Q]. *)
Definition keeps {A} (base : Store) (m : StateM Store A) (Q : A -> Prop)
  : Prop :=
  forall s, extends base s ->
    extends base (snd (m s)) /\ forall a, fst (m s) = Ok a -> Q a.

(** A computation that leaves the store as it is. *)
Definition reads {A} (m : StateM Store A) : Prop := forall s, snd (m s) = s.

(* ===================================================================== *)
(** ** Comparing scalars *)
(* ===================================================================== *)

Lemma compare_cont_refl m : PosDef.Pos.compare_cont Eq m m = Eq.
Proof. exact (Pos.compare_cont_refl m Eq). Qed.

Lemma compare_cont_opp p q :
  PosDef.Pos.compare_cont Eq q p = CompOpp (PosDef.Pos.compare_cont Eq p q).
Proof. exact (eq_sym (Pos.compare_cont_antisym p q Eq)). Qed.

Lemma compare_cont_pos m1 m2 :
  PosDef.Pos.compare_cont Eq m1 m2 = (Zpos m1 ?= Zpos m2).
Proof. reflexivity. Qed.

Lemma SFcompare_antisym x y c :
  SFcompare x y = Some c -> SFcompare y x = Some (CompOpp c).
Proof.
  destruct x as [sx|sx| |sx mx ex], y as [sy|sy| |sy my ey]; simpl;
    try discriminate;
    try (destruct sx; intros [= <-]; reflexivity);
    try (destruct sy; intros [= <-]; reflexivity);
    try (destruct sx, sy; intros [= <-]; reflexivity).
  intros [= <-]. f_equal.
  destruct sx, sy; simpl; try reflexivity;
    rewrite (Z.compare_antisym ex ey), (compare_cont_opp mx my);
    destruct (ex ?= ey); reflexivity.
Qed.

Lemma f_ltb_asym x y : f_ltb x y = true -> f_ltb y x = false.
Proof.
  unfold f_ltb, SFltb.
  destruct (SFcompare x y) as [[]|] eqn:E; try discriminate.
  intros _. now rewrite (SFcompare_antisym _ _ _ E).
Qed.

Lemma f_ltb_irrefl x : f_ltb x x = false.
Proof.
  destruct (f_ltb x x) eqn:E; [|reflexivity].
  pose proof (f_ltb_asym _ _ E). congruence.
Qed.

(** Whatever is below something is below infinity. *)
Lemma f_ltb_inf x y : f_ltb x y = true -> f_ltb x inf = true.
Proof.
  unfold f_ltb, SFltb, inf.
  destruct x as [sx|[]| |sx mx ex], y as [sy|[]| |sy my ey]; simpl;
    try discriminate; try reflexivity.
Qed.

Lemma f_ltb_number x y :
  f_ltb x y = true -> is_nan x = false /\ is_nan y = false.
Proof.
  unfold f_ltb, SFltb.
  destruct x as [sx|sx| |sx mx ex], y as [sy|sy| |sy my ey]; simpl;
    try discriminate; auto.
Qed.

Lemma f_eqb_refl x : is_nan x = false -> f_eqb x x = true.
Proof.
  unfold f_eqb, SFeqb.
  destruct x as [sx|sx| |sx mx ex]; simpl; try discriminate; try reflexivity.
  - destruct sx; reflexivity.
  - intros _.
    destruct sx; rewrite Z.compare_refl, compare_cont_refl; reflexivity.
Qed.

Ltac rank_case :=
  simpl; split;
  [ let H := fresh in intros H; try discriminate H; repeat split; lia
  | let H1 := fresh in let H2 := fresh in let H := fresh in
    intros (H1 & H2 & H); try discriminate H1; try discriminate H2;
    try reflexivity; exfalso; lia ].

Lemma f_ltb_rank x y :
  f_ltb x y = true <->
  is_nan x = false /\ is_nan y = false /\ rank_lt (rank x) (rank y).
Proof.
  unfold f_ltb, SFltb.
  destruct x as [[]|[]| |[] mx ex], y as [[]|[]| |[] my ey];
    first [ rank_case
          | simpl; rewrite ?compare_cont_pos;
            destruct (Z.compare_spec ex ey),
                     (Z.compare_spec (Zpos mx) (Zpos my)); rank_case ].
Qed.

Lemma f_ltb_trans x y z :
  f_ltb x y = true -> f_ltb y z = true -> f_ltb x z = true.
Proof.
  rewrite !f_ltb_rank. intros (Hx & _ & Hxy) (_ & Hz & Hyz).
  repeat split; auto.
  destruct (rank x) as [[? ?] ?], (rank y) as [[? ?] ?], (rank z) as [[? ?] ?].
  unfold rank_lt in *. lia.
Qed.

(** Below the minimum means below whatever is not below the minimum. *)
Lemma f_ltb_below x m d :
  f_ltb x m = true -> f_ltb d m = false -> is_nan d = false ->
  f_ltb x d = true.
Proof.
  intros Hx Hd Hn. apply f_ltb_rank in Hx as (Hx & Hm & Hxm).
  apply f_ltb_rank. repeat split; auto.
  assert (~ rank_lt (rank d) (rank m)) as H1.
  { intros H. rewrite (proj2 (f_ltb_rank d m)) in Hd; auto. discriminate. }
  destruct (rank x) as [[? ?] ?], (rank m) as [[? ?] ?], (rank d) as [[? ?] ?].
  unfold rank_lt in *. lia.
Qed.

(** Two finite scalars that compare equal are the same scalar. *)
Lemma f_eqb_finite sa ma ea sb mb eb :
  SFcompare (S754_finite sa ma ea) (S754_finite sb mb eb) = Some Eq ->
  S754_finite sa ma ea = S754_finite sb mb eb.
Proof.
  simpl. intros [= H].
  assert (sa = sb /\ (ea ?= eb) = Eq /\ PosDef.Pos.compare_cont Eq ma mb = Eq)
    as (-> & E & F).
  { destruct sa, sb; try discriminate;
      destruct (ea ?= eb); try discriminate;
      destruct (PosDef.Pos.compare_cont Eq ma mb); try discriminate; auto. }
  apply Z.compare_eq in E.
  apply (Pos.compare_eq ma mb) in F.
  now subst.
Qed.

Section TrackingFacts.
Context {np : NumPy}.

(** [a == b] makes [(p - a) ** 2] and [(p - b) ** 2] the same scalar; the
    only scalars that are equal without being the same are the two zeros,
    whose squares are both [+0]. *)
Lemma f_eqb_sub_pow2 p a b :
  f_eqb a b = true -> f32_pow2 (f32_sub p a) = f32_pow2 (f32_sub p b).
Proof.
  unfold f_eqb, SFeqb.
  destruct (SFcompare a b) as [[]|] eqn:E; try discriminate. intros _.
  destruct a as [sa|sa| |sa ma ea], b as [sb|sb| |sb mb eb];
    try (now rewrite (f_eqb_finite _ _ _ _ _ _ E));
    cbn in E; try discriminate E;
    try (destruct sa; discriminate E); try (destruct sb; discriminate E).
  - destruct p as [sp|sp| |sp mp ep]; try reflexivity.
    destruct sp, sa, sb; cbn; now rewrite !f32_pow2_zero.
  - destruct sa, sb; try discriminate E; reflexivity.
Qed.

(* ===================================================================== *)
(** ** Distances *)
(* ===================================================================== *)

Lemma is_nan_true x : is_nan x = true -> x = S754_nan.
Proof. destruct x; simpl; congruence. Qed.

Lemma f32_sub_nan_r a : f32_sub a S754_nan = S754_nan.
Proof. destruct a; reflexivity. Qed.

Lemma f32_add_nan_r x : f32_add x S754_nan = S754_nan.
Proof. destruct x; reflexivity. Qed.

Lemma distance_nan_x p y : distance p (mkPoint S754_nan y) = S754_nan.
Proof.
  unfold distance; simpl. now rewrite f32_sub_nan_r, f32_pow2_nan.
Qed.

Lemma distance_nan_y p x : distance p (mkPoint x S754_nan) = S754_nan.
Proof.
  unfold distance; simpl.
  now rewrite f32_sub_nan_r, f32_pow2_nan, f32_add_nan_r.
Qed.

(** A distance that is a number was taken to a row of numbers. *)
Lemma distance_number p i :
  is_nan (distance p i) = false ->
  is_nan (px i) = false /\ is_nan (py i) = false.
Proof.
  destruct i as [x y]; simpl. intros H.
  split.
  - destruct (is_nan x) eqn:E; [|reflexivity].
    apply is_nan_true in E; subst x. now rewrite distance_nan_x in H.
  - destruct (is_nan y) eqn:E; [|reflexivity].
    apply is_nan_true in E; subst y. now rewrite distance_nan_y in H.
Qed.

Lemma all_eq_refl i :
  is_nan (px i) = false -> is_nan (py i) = false -> all_eq i i = true.
Proof. intros Hx Hy. unfold all_eq. now rewrite !f_eqb_refl. Qed.

(** Candidates with equal coordinates are equally far. *)
Lemma all_eq_distance p a b : all_eq a b = true -> distance p a = distance p b.
Proof.
  unfold all_eq, distance. intros [H1 H2]%andb_prop.
  now rewrite (f_eqb_sub_pow2 (px p) _ _ H1), (f_eqb_sub_pow2 (py p) _ _ H2).
Qed.

(* ===================================================================== *)
(** ** The nearest candidate and the loop of [centroidTracking] *)
(* ===================================================================== *)

Lemma argmin_from_spec ds : forall pre m best,
  is_nan m = false ->
  (forall dj, In dj pre -> f_ltb dj m = false) ->
  match best with
  | Some b =>
      pre !! b = Some m /\ f_ltb m inf = true /\
      (forall j dj, (j < b)%nat -> pre !! j = Some dj -> is_nan dj = false ->
                    f_ltb m dj = true)
  | None => m = inf
  end ->
  match argmin_from m best (length pre) ds with
  | Some b =>
      exists d, (pre ++ ds) !! b = Some d /\ f_ltb d inf = true /\
        (forall dj, In dj (pre ++ ds) -> f_ltb dj d = false) /\
        (forall j dj, (j < b)%nat -> (pre ++ ds) !! j = Some dj ->
                      is_nan dj = false -> f_ltb d dj = true)
  | None => forall dj, In dj (pre ++ ds) -> f_ltb dj inf = false
  end.
Proof.
  induction ds as [|d ds IH]; intros pre m best Hm Hpre Hbest; cbn [argmin_from].
  - rewrite app_nil_r. destruct best as [b|].
    + destruct Hbest as (Hb & Hinf & Hfirst). exists m. auto.
    + now subst m.
  - replace (pre ++ d :: ds) with ((pre ++ [d]) ++ ds) by now rewrite <- app_assoc.
    replace (S (length pre)) with (length (pre ++ [d]))
      by (rewrite length_app; simpl; lia).
    destruct (f_ltb d m) eqn:Hd.
    + apply IH.
      * now apply f_ltb_number in Hd.
      * intros dj [Hin|[<-|[]]]%in_app_or; [|apply f_ltb_irrefl].
        destruct (f_ltb dj d) eqn:E; [|reflexivity].
        rewrite <- (Hpre dj Hin). symmetry. now apply (f_ltb_trans dj d m).
      * split; [|split].
        -- rewrite lookup_app_r by lia. now rewrite Nat.sub_diag.
        -- now apply f_ltb_inf in Hd.
        -- intros j dj Hj Hl Hn. rewrite lookup_app_l in Hl by lia.
           apply (f_ltb_below d m dj); auto.
           apply Hpre. apply list_elem_of_In.
           now apply list_elem_of_lookup_2 in Hl.
    + apply IH; auto.
      * intros dj [Hin|[<-|[]]]%in_app_or; auto.
      * destruct best as [b|]; auto.
        destruct Hbest as (Hb & Hinf & Hfirst). split; [|split]; auto.
        -- now apply lookup_app_l_Some.
        -- intros j dj Hj Hl Hn. apply (Hfirst j dj); auto.
           apply lookup_lt_Some in Hb. now rewrite lookup_app_l in Hl by lia.
Qed.

(** What [argmin] selects: a distance below infinity that no distance is
    below and that is below every number before it. *)
Lemma argmin_least ds k :
  argmin ds = Some k ->
  exists d, ds !! k = Some d /\ f_ltb d inf = true /\
    (forall dj, In dj ds -> f_ltb dj d = false) /\
    (forall j dj, (j < k)%nat -> ds !! j = Some dj -> is_nan dj = false ->
                  f_ltb d dj = true).
Proof.
  intros H. pose proof (argmin_from_spec ds [] inf None eq_refl) as S.
  cbn [length app] in S. fold (argmin ds) in S. rewrite H in S.
  apply S; [intros dj [] | reflexivity].
Qed.

(** The argmin of three distances, case by case. *)
Lemma argmin3 d0 d1 d2 :
  argmin [d0; d1; d2] =
  if f_ltb d0 inf then
    if f_ltb d1 d0 then (if f_ltb d2 d1 then Some 2%nat else Some 1%nat)
    else (if f_ltb d2 d0 then Some 2%nat else Some 0%nat)
  else
    if f_ltb d1 inf then (if f_ltb d2 d1 then Some 2%nat else Some 1%nat)
    else (if f_ltb d2 inf then Some 2%nat else None).
Proof.
  unfold argmin; simpl.
  destruct (f_ltb d0 inf), (f_ltb d1 d0), (f_ltb d1 inf); reflexivity.
Qed.

Lemma last_distance_snoc l d : last_distance (l ++ [d]) = d.
Proof. unfold last_distance. apply last_last. Qed.

Lemma search_step_eq p0 m l c i :
  search_step p0 (m, l, c) i =
  if f_ltb (distance p0 i) m
  then (distance p0 i, l ++ [distance p0 i], i)
  else (m, l ++ [distance p0 i], c).
Proof. unfold search_step. now rewrite last_distance_snoc. Qed.

(** The loop keeps the coordinates of the candidate [argmin] points at. *)
Lemma search_argmin p0 (all : list Point) cands :
  forall m l c best k,
    (forall j, best = Some j -> all !! j = Some c) ->
    (forall j x, cands !! j = Some x -> all !! (k + j)%nat = Some x) ->
    match argmin_from m best k (map (distance p0) cands) with
    | Some j =>
        all !! j = Some (snd (fold_left (search_step p0) cands (m, l, c)))
    | None =>
        best = None /\ snd (fold_left (search_step p0) cands (m, l, c)) = c
    end.
Proof.
  induction cands as [|i cands IH]; intros m l c best k Hbest Hall;
    cbn [fold_left map argmin_from].
  - destruct best as [j|]; simpl; auto.
  - rewrite search_step_eq.
    assert (Hi : all !! k = Some i).
    { rewrite <- (Nat.add_0_r k). now apply Hall. }
    assert (Hrest : forall j x, cands !! j = Some x ->
                                all !! (S k + j)%nat = Some x).
    { intros j x Hj. replace (S k + j)%nat with (k + S j)%nat by lia.
      now apply Hall. }
    destruct (f_ltb (distance p0 i) m).
    + specialize (IH (distance p0 i) (l ++ [distance p0 i]) i (Some k) (S k)).
      destruct (argmin_from _ _ _ _) as [j|].
      * apply IH; auto. now intros j' [= <-].
      * destruct IH as [IH _]; auto. now intros j' [= <-]. discriminate.
    + specialize (IH m (l ++ [distance p0 i]) c best (S k) Hbest Hrest).
      exact IH.
Qed.

(** After the loop [minCoordinatesCenter] is the nearest candidate, or
    still [[0, 0]] when no distance was below infinity. *)
Lemma search_nearest p0 cands :
  match nearest p0 cands with
  | Some j =>
      cands !! j = Some (snd (fold_left (search_step p0) cands search_init))
  | None => snd (fold_left (search_step p0) cands search_init) = pt 0 0
  end.
Proof.
  unfold nearest, argmin, search_init.
  pose proof (search_argmin p0 cands cands inf [] (pt 0 0) None 0%nat) as H.
  destruct (argmin_from _ _ _ _) as [j|].
  - apply H; [discriminate | auto].
  - apply H; [discriminate | auto].
Qed.

(** [centroidTracking] on two pairs: the loop, then the test of line 174. *)
Lemma centroidTracking_pair {C} (clusterA clusterB : C) c0 c1 p0 p1 :
  centroidTracking clusterA clusterB [c0; c1] [p0; p1] =
  if all_eq (snd (fold_left (search_step p0) [c0; c1; p1] search_init)) c1
  then Some (clusterB, clusterA, [c1; c0])
  else Some (clusterA, clusterB, [c0; c1]).
Proof.
  unfold centroidTracking. cbn [lookup list_lookup app].
  destruct (fold_left _ _ _) as [[m l] c]. reflexivity.
Qed.

Lemma swap_when_equal {C} (clusterA clusterB : C) c0 c1 p0 p1 k cand :
  nearest p0 [c0; c1; p1] = Some k ->
  [c0; c1; p1] !! k = Some cand ->
  all_eq cand c1 = true ->
  centroidTracking clusterA clusterB [c0; c1] [p0; p1] =
  Some (clusterB, clusterA, [c1; c0]).
Proof.
  intros Hk Hc He. rewrite centroidTracking_pair.
  pose proof (search_nearest p0 [c0; c1; p1]) as H. rewrite Hk in H.
  rewrite Hc in H.
  replace (snd (fold_left (search_step p0) [c0; c1; p1] search_init)) with cand
    by congruence.
  now rewrite He.
Qed.

Lemma keep_when_different {C} (clusterA clusterB : C) c0 c1 p0 p1 k cand :
  nearest p0 [c0; c1; p1] = Some k ->
  [c0; c1; p1] !! k = Some cand ->
  all_eq cand c1 = false ->
  centroidTracking clusterA clusterB [c0; c1] [p0; p1] =
  Some (clusterA, clusterB, [c0; c1]).
Proof.
  intros Hk Hc He. rewrite centroidTracking_pair.
  pose proof (search_nearest p0 [c0; c1; p1]) as H. rewrite Hk in H.
  rewrite Hc in H.
  replace (snd (fold_left (search_step p0) [c0; c1; p1] search_init)) with cand
    by congruence.
  now rewrite He.
Qed.

(** The test of line 174 only looks at the coordinates of the nearest
    candidate. *)
Lemma swap_decided_by_coordinates {C} (clusterA clusterB : C)
    c0 c1 p0 p1 k cand :
  nearest p0 [c0; c1; p1] = Some k ->
  [c0; c1; p1] !! k = Some cand ->
  centroidTracking clusterA clusterB [c0; c1] [p0; p1] =
  if all_eq cand c1
  then Some (clusterB, clusterA, [c1; c0])
  else Some (clusterA, clusterB, [c0; c1]).
Proof.
  intros Hk Hc. destruct (all_eq cand c1) eqn:E.
  - exact (swap_when_equal _ _ _ _ _ _ k cand Hk Hc E).
  - exact (keep_when_different _ _ _ _ _ _ k cand Hk Hc E).
Qed.

(** When no distance is below infinity the test of line 174 compares
    [center[1]] with the initial [[0, 0]]. *)
Lemma none_nearest {C} (clusterA clusterB : C) c0 c1 p0 p1 :
  nearest p0 [c0; c1; p1] = None ->
  centroidTracking clusterA clusterB [c0; c1] [p0; p1] =
  if all_eq (pt 0 0) c1
  then Some (clusterB, clusterA, [c1; c0])
  else Some (clusterA, clusterB, [c0; c1]).
Proof.
  intros Hk. rewrite centroidTracking_pair.
  pose proof (search_nearest p0 [c0; c1; p1]) as H. rewrite Hk in H.
  now rewrite H.
Qed.

Lemma nearest_second p0 c0 c1 p1 :
  f_ltb (distance p0 c1) (distance p0 c0) = true ->
  f_ltb (distance p0 c1) (distance p0 p1) = true ->
  nearest p0 [c0; c1; p1] = Some 1%nat.
Proof.
  intros H0 H2. unfold nearest. cbn [map]. rewrite argmin3.
  rewrite H0, (f_ltb_inf _ _ H0), (f_ltb_asym _ _ H2).
  now destruct (f_ltb (distance p0 c0) inf).
Qed.



(* ===================================================================== *)
(** ** [centroidTracking]: when it swaps *)
(* ===================================================================== *)

(** C1, amended.  When the distance from [previousCenter[0]] to
    [center[1]], as lines 168-169 compute it (float32 differences, their
    squares and the float32 sum of the squares, the root of a double), is
    strictly smaller than the computed distance to [center[0]] and than the
    computed distance to [previousCenter[1]], [centroidTracking] returns
    the two clusters swapped and the centre pair reversed,
    [[center[1], center[0]]].  This holds whatever the C library's [powf]
    makes of the squares. *)
Theorem swap_when_second_centre_nearest {C} (clusterA clusterB : C)
    c0 c1 p0 p1 :
  f_ltb (distance p0 c1) (distance p0 c0) = true ->
  f_ltb (distance p0 c1) (distance p0 p1) = true ->
  centroidTracking clusterA clusterB [c0; c1] [p0; p1] =
  Some (clusterB, clusterA, [c1; c0]).
Proof.
  intros H0 H2.
  apply (swap_when_equal _ _ _ _ _ _ 1%nat c1
           (nearest_second _ _ _ _ H0 H2) eq_refl).
  destruct (f_ltb_number _ _ H0) as [Hn _].
  apply distance_number in Hn as [Hx Hy]. now apply all_eq_refl.
Qed.



End TrackingFacts.

(** The statements above on concrete rows, with the square of the test
    double [exact_squares]. *)
Section TrackingExamples.
#[local] Existing Instance exact_squares.

Lemma swap_when_second_centre_nearest_witness :
  f_ltb (distance (pt 0 0) (pt 1 1)) (distance (pt 0 0) (pt 9 9)) = true /\
  f_ltb (distance (pt 0 0) (pt 1 1)) (distance (pt 0 0) (pt 5 5)) = true /\
  centroidTracking [pt 9 8; pt 9 10] [pt 1 0; pt 1 2]
                   [pt 9 9; pt 1 1] [pt 0 0; pt 5 5] =
  Some ([pt 1 0; pt 1 2], [pt 9 8; pt 9 10], [pt 1 1; pt 9 9]).
Proof.
  assert (H0 : f_ltb (distance (pt 0 0) (pt 1 1)) (distance (pt 0 0) (pt 9 9))
               = true) by (vm_compute; reflexivity).
  assert (H2 : f_ltb (distance (pt 0 0) (pt 1 1)) (distance (pt 0 0) (pt 5 5))
               = true) by (vm_compute; reflexivity).
  split; [exact H0 | split; [exact H2 |]].
  exact (swap_when_second_centre_nearest _ _ _ _ _ _ H0 H2).
Defined.

(** The claim of C1 as the spec words it, with Euclidean distances, fails
    where the float32 arithmetic of lines 168-169 rounds a difference away:
    [center[1]] is strictly nearer to [previousCenter[0]] than [center[0]]
    and [previousCenter[1]] are, the two computed distances are both 1024,
    the earlier candidate stays the minimum, and nothing is swapped. *)
Lemma nearer_second_centre_not_swapped :
  let c0 := mkPoint (f32_of_Z 1024) (f32_dyadic 1 (-3)) in
  let c1 := pt 1024 0 in
  let p0 := pt 0 0 in
  let p1 := pt 1900 1000 in
  Qlt (euclid2 p0 c1) (euclid2 p0 c0) /\
  Qlt (euclid2 p0 c1) (euclid2 p0 p1) /\
  distance p0 c0 = f64_of_Z 1024 /\
  distance p0 c1 = f64_of_Z 1024 /\
  centroidTracking [pt 1024 1] [pt 1023 0] [c0; c1] [p0; p1] =
    Some ([pt 1024 1], [pt 1023 0], [c0; c1]) /\
  centroidTracking [pt 1024 1] [pt 1023 0] [c0; c1] [p0; p1] <>
    Some ([pt 1023 0], [pt 1024 1], [c1; c0]).
Proof.
  repeat split; try (vm_compute; reflexivity).
  vm_compute. discriminate.
Qed.




End TrackingExamples.

(* ===================================================================== *)
(** ** [centroidTracking] on the store: what it may touch *)
(* ===================================================================== *)

Lemma extends_refl base : extends base base.
Proof. exists []. now rewrite app_nil_r. Qed.

Lemma keeps_ret {A} base (a : A) (Q : A -> Prop) : Q a -> keeps base (ret a) Q.
Proof. intros H s Hs; split; [exact Hs | now intros a' [= <-]]. Qed.

Lemma keeps_raise {A} base e (Q : A -> Prop) : keeps base (raise e) Q.
Proof. intros s Hs; split; [exact Hs | discriminate]. Qed.

Lemma keeps_bind {A B} base (m : StateM Store A) (k : A -> StateM Store B) Q R :
  keeps base m Q -> (forall a, Q a -> keeps base (k a) R) ->
  keeps base (bind m k) R.
Proof.
  intros Hm Hk s Hs. unfold bind.
  destruct (Hm s Hs) as [Hs' Ha].
  destruct (m s) as [[a|e] s']; simpl in *.
  - apply Hk; auto.
  - split; [exact Hs' | discriminate].
Qed.

Lemma keeps_weaken {A} base (m : StateM Store A) (Q R : A -> Prop) :
  keeps base m Q -> (forall a, Q a -> R a) -> keeps base m R.
Proof. intros Hm HQ s Hs. destruct (Hm s Hs); split; auto. Qed.

Lemma keeps_new base o : keeps base (new o) (fresh base).
Proof.
  intros s [more ->]; unfold new; simpl; split.
  - exists (more ++ [o]). now rewrite app_assoc.
  - intros a [= <-]. eexists; split; [reflexivity|]. rewrite length_app. lia.
Qed.

Lemma keeps_reads {A} base (m : StateM Store A) : reads m -> keeps base m (fun _ => True).
Proof. intros H s Hs. rewrite H. auto. Qed.

Lemma reads_getitem v k : reads (getitem v k).
Proof. intros s. unfold getitem. repeat case_match; reflexivity. Qed.

Lemma reads_getitem_last v : reads (getitem_last v).
Proof. intros s. unfold getitem_last. repeat case_match; reflexivity. Qed.

Lemma reads_elements v : reads (elements v).
Proof. intros s. unfold elements. repeat case_match; reflexivity. Qed.

Lemma reads_scalar v : reads (scalar v).
Proof. intros s. destruct v; reflexivity. Qed.

Lemma reads_row v : reads (row v).
Proof. intros s. unfold row. repeat case_match; reflexivity. Qed.

Lemma reads_all_eq_at a b : reads (all_eq_at a b).
Proof.
  intros s. unfold all_eq_at, bind.
  pose proof (reads_row a s) as Ha. destruct (row a s) as [[pa|e] s1]; simpl in Ha; subst s1; [|reflexivity].
  pose proof (reads_row b s) as Hb. destruct (row b s) as [[pb|e] s1]; simpl in Hb; subst s1; reflexivity.
Qed.

Lemma keeps_extend base v xs : fresh base v -> keeps base (extend v xs) (fun _ => True).
Proof.
  intros (l & -> & Hl) s [more ->]. unfold extend.
  destruct ((base ++ more) !! l) as [[p|items]|] eqn:E; rewrite ?E; simpl.
  - split; [now exists more | auto].
  - split; [|auto].
    exists (<[(l - length base)%nat := OSeq (items ++ xs)]> more).
    replace l with (length base + (l - length base))%nat at 1 by lia.
    apply insert_app_r.
  - split; [now exists more | auto].
Qed.

Lemma keeps_for_each {A} base xs (body : A -> Val -> StateM Store A) :
  (forall acc i, keeps base (body acc i) (fun _ => True)) ->
  forall acc, keeps base (for_each xs body acc) (fun _ => True).
Proof.
  intros Hb. induction xs as [|i xs IH]; intros acc; simpl.
  - now apply keeps_ret.
  - eapply keeps_bind; [apply Hb | intros; apply IH].
Qed.

Ltac keep_step :=
  match goal with
  | |- keeps _ (bind (new _) _) _ => eapply keeps_bind; [apply keeps_new | intros ? ?]
  | |- keeps _ (bind (extend _ _) _) _ =>
      eapply keeps_bind; [apply keeps_extend; assumption | intros ? _]
  | |- keeps _ (bind (append _ _) _) _ =>
      eapply keeps_bind; [apply keeps_extend; assumption | intros ? _]
  | |- keeps _ (bind (getitem _ _) _) _ =>
      eapply keeps_bind; [apply keeps_reads, reads_getitem | intros ? _]
  | |- keeps _ (bind (getitem_last _) _) _ =>
      eapply keeps_bind; [apply keeps_reads, reads_getitem_last | intros ? _]
  | |- keeps _ (bind (scalar _) _) _ =>
      eapply keeps_bind; [apply keeps_reads, reads_scalar | intros ? _]
  | |- keeps _ (bind (elements _) _) _ =>
      eapply keeps_bind; [apply keeps_reads, reads_elements | intros ? _]
  | |- keeps _ (bind (all_eq_at _ _) _) _ =>
      eapply keeps_bind; [apply keeps_reads, reads_all_eq_at | intros ? _]
  | |- keeps _ (ret _) _ => apply keeps_ret; exact I
  | |- keeps _ (if ?b then _ else _) _ => destruct b
  end.

Lemma keeps_search_body {np : NumPy} base previousCenter distanceListCenter acc i :
  fresh base distanceListCenter ->
  keeps base (search_body previousCenter distanceListCenter acc i) (fun _ => True).
Proof.
  intros Hd. unfold search_body. destruct acc as [minDistance minCoordinatesCenter].
  repeat keep_step.
Qed.

Lemma keeps_centroidTracking_store {np : NumPy} base clusterA clusterB center previousCenter :
  keeps base (centroidTracking_store clusterA clusterB center previousCenter)
        (fun _ => True).
Proof.
  unfold centroidTracking_store.
  repeat keep_step.
  eapply keeps_bind.
  { apply keeps_for_each. intros. now apply keeps_search_body. }
  intros found _. repeat keep_step.
Qed.

Lemma store_only_grows {np : NumPy} clusterA clusterB center previousCenter s :
  extends s (snd (centroidTracking_store clusterA clusterB center previousCenter s)).
Proof. apply keeps_centroidTracking_store, extends_refl. Qed.

(* ===================================================================== *)
(** ** [centroidTracking] on the store: what it computes *)
(* ===================================================================== *)

Lemma bind_ok {S A B} (m : StateM S A) (k : A -> StateM S B) s a s' :
  m s = (Ok a, s') -> bind m k s = k a s'.
Proof. unfold bind. now intros ->. Qed.

Lemma lookup_new (s tail : list Obj) j : (s ++ tail) !! (length s + j)%nat = tail !! j.
Proof. rewrite lookup_app_r by lia. f_equal. lia. Qed.

Lemma new_first o (s : list Obj) : new o s = (Ok (VRef (length s + 0)), s ++ [o]).
Proof. unfold new. now rewrite Nat.add_0_r. Qed.

Lemma new_next o (s tail : list Obj) :
  new o (s ++ tail) = (Ok (VRef (length s + length tail)), s ++ (tail ++ [o])).
Proof. unfold new. now rewrite length_app, app_assoc. Qed.

Lemma getitem_old (s tail : list Obj) l o k x :
  s !! l = Some o -> obj_getitem o k = Some x ->
  getitem (VRef l) k (s ++ tail) = (Ok x, s ++ tail).
Proof. intros H Hx. unfold getitem. now rewrite (lookup_app_l_Some _ _ _ _ H), Hx. Qed.

Lemma getitem_new (s tail : list Obj) j o k x :
  tail !! j = Some o -> obj_getitem o k = Some x ->
  getitem (VRef (length s + j)) k (s ++ tail) = (Ok x, s ++ tail).
Proof. intros H Hx. unfold getitem. now rewrite lookup_new, H, Hx. Qed.

Lemma getitem_last_new (s tail : list Obj) j items x :
  tail !! j = Some (OSeq (items ++ [x])) ->
  getitem_last (VRef (length s + j)) (s ++ tail) = (Ok x, s ++ tail).
Proof.
  intros H. unfold getitem_last. rewrite lookup_new, H.
  rewrite map_app. cbn [map]. now rewrite last_last.
Qed.

Lemma extend_new (s tail : list Obj) j items xs :
  tail !! j = Some (OSeq items) ->
  extend (VRef (length s + j)) xs (s ++ tail) =
  (Ok tt, s ++ <[j := OSeq (items ++ xs)]> tail).
Proof. intros H. unfold extend. now rewrite lookup_new, H, insert_app_r. Qed.

Lemma elements_new (s tail : list Obj) j items :
  tail !! j = Some (OSeq items) ->
  elements (VRef (length s + j)) (s ++ tail) = (Ok items, s ++ tail).
Proof. intros H. unfold elements. now rewrite lookup_new, H. Qed.

Lemma row_old (s tail : list Obj) l p :
  s !! l = Some (ORow p) -> row (VRef l) (s ++ tail) = (Ok p, s ++ tail).
Proof. intros H. unfold row. now rewrite (lookup_app_l_Some _ _ _ _ H). Qed.

Lemma row_new (s tail : list Obj) j p :
  tail !! j = Some (ORow p) ->
  row (VRef (length s + j)) (s ++ tail) = (Ok p, s ++ tail).
Proof. intros H. unfold row. now rewrite lookup_new, H. Qed.

Lemma read_rows_pair (s : list Obj) v a b :
  read_rows s v = Some [a; b] ->
  exists l r0 r1, v = VRef l /\ s !! l = Some (OSeq [VRef r0; VRef r1]) /\
                  s !! r0 = Some (ORow a) /\ s !! r1 = Some (ORow b).
Proof.
  unfold read_rows. destruct v as [f|l]; [discriminate|].
  destruct (s !! l) as [[p|items]|] eqn:E; try discriminate.
  destruct items as [|v0 [|v1 [|v2 items]]]; simpl; try discriminate.
  - destruct (read_row s v0); discriminate.
  - unfold read_row.
    destruct v0 as [|r0]; [discriminate|].
    destruct (s !! r0) as [[p0|]|] eqn:E0; try discriminate.
    destruct v1 as [|r1]; [discriminate|].
    destruct (s !! r1) as [[p1|]|] eqn:E1; try discriminate.
    intros [= <- <-]. now exists l, r0, r1.
  - destruct (read_row s v0), (read_row s v1), (read_row s v2), (read_all s items);
      discriminate.
Qed.

Ltac side :=
  solve [ apply new_next | apply new_first
        | eapply getitem_old; [eassumption | reflexivity]
        | eapply getitem_new; reflexivity
        | eapply getitem_last_new; reflexivity
        | eapply extend_new; reflexivity
        | eapply elements_new; reflexivity
        | eapply row_old; eassumption
        | eapply row_new; reflexivity
        | reflexivity ].

Ltac run := erewrite bind_ok by side; cbn [length Nat.add insert list_insert app scalar].

(** One turn of the loop on the store does what [search_step] does. *)
Lemma search_body_run {np : NumPy} (s : list Obj) lp q0 q1 p0 cs l z m v ri i :
  s !! lp = Some (OSeq [VRef q0; VRef q1]) ->
  s !! q0 = Some (ORow p0) ->
  s !! ri = Some (ORow i) ->
  search_body (VRef lp) (VRef (length s + 1)) (m, v) (VRef ri)
              (s ++ [cs; OSeq (map VFloat l); z]) =
  (Ok (if f_ltb (distance p0 i) m then (distance p0 i, VRef ri) else (m, v)),
   s ++ [cs; OSeq (map VFloat (l ++ [distance p0 i])); z]).
Proof.
  intros Hp Hq Hi. unfold search_body, append.
  do 10 run.
  fold (distance p0 i).
  do 3 run.
  rewrite map_app. cbn [map].
  destruct (f_ltb (distance p0 i) m).
  - do 2 run. reflexivity.
  - reflexivity.
Qed.

(** The loop on the store, against the loop on values. *)
Lemma for_each_run {np : NumPy} (s : list Obj) lp q0 q1 p0 cs z :
  s !! lp = Some (OSeq [VRef q0; VRef q1]) ->
  s !! q0 = Some (ORow p0) ->
  forall (refs : list nat) (pts : list Point),
    Forall2 (fun r p => s !! r = Some (ORow p)) refs pts ->
    forall l m v c,
      read_row (s ++ [cs; OSeq (map VFloat l); z]) v = Some c ->
      exists m' l' v' c',
        for_each (map VRef refs) (search_body (VRef lp) (VRef (length s + 1)))
                 (m, v) (s ++ [cs; OSeq (map VFloat l); z]) =
        (Ok (m', v'), s ++ [cs; OSeq (map VFloat l'); z]) /\
        fold_left (search_step p0) pts (m, l, c) = (m', l', c') /\
        read_row (s ++ [cs; OSeq (map VFloat l'); z]) v' = Some c'.
Proof.
  intros Hp Hq refs pts HF. induction HF as [|r p refs pts Hr HF IH];
    intros l m v c Hv; cbn [map for_each fold_left].
  - exists m, l, v, c. auto.
  - erewrite bind_ok by (eapply search_body_run; eassumption).
    rewrite search_step_eq.
    destruct (f_ltb (distance p0 p) m).
    + apply IH. unfold read_row. now rewrite (lookup_app_l_Some _ _ _ _ Hr).
    + apply IH. revert Hv. unfold read_row. destruct v as [|lv]; [auto|].
      destruct (decide (lv < length s)%nat).
      * now rewrite !lookup_app_l by lia.
      * replace lv with (length s + (lv - length s))%nat by lia.
        rewrite !lookup_new.
        destruct (lv - length s)%nat as [|[|[|k]]]; simpl; auto; discriminate.
Qed.

Lemma read_row_old (s more : list Obj) v p :
  read_row s v = Some p -> read_row (s ++ more) v = Some p.
Proof.
  unfold read_row. destruct v as [|l]; [discriminate|].
  destruct (s !! l) as [[q|]|] eqn:E; try discriminate.
  now rewrite (lookup_app_l_Some _ _ _ _ E).
Qed.

Lemma read_all_old (s more : list Obj) vs :
  forall ps, read_all s vs = Some ps -> read_all (s ++ more) vs = Some ps.
Proof.
  induction vs as [|v vs IH]; intros ps; simpl; [auto|].
  destruct (read_row s v) as [p|] eqn:E; [|discriminate].
  rewrite (read_row_old _ more _ _ E).
  destruct (read_all s vs) as [ps'|]; [|discriminate].
  now rewrite (IH ps' eq_refl).
Qed.

Lemma read_rows_old (s more : list Obj) v ps :
  read_rows s v = Some ps -> read_rows (s ++ more) v = Some ps.
Proof.
  unfold read_rows. destruct v as [|l]; [discriminate|].
  destruct (s !! l) as [[|items]|] eqn:E; try discriminate.
  rewrite (lookup_app_l_Some _ _ _ _ E). apply read_all_old.
Qed.

Lemma all_eq_at_run (s : list Obj) a b pa pb :
  row a s = (Ok pa, s) -> row b s = (Ok pb, s) ->
  all_eq_at a b s = (Ok (all_eq pa pb), s).
Proof.
  intros Ha Hb. unfold all_eq_at.
  erewrite bind_ok by exact Ha. erewrite bind_ok by exact Hb. reflexivity.
Qed.

Theorem centroidTracking_store_refines {np : NumPy} (s : list Obj)
    clusterA clusterB center previousCenter c0 c1 p0 p1 :
  read_rows s center = Some [c0; c1] ->
  read_rows s previousCenter = Some [p0; p1] ->
  exists a b center' more cs,
    centroidTracking_store clusterA clusterB center previousCenter s =
      (Ok (a, b, center'), s ++ more) /\
    centroidTracking clusterA clusterB [c0; c1] [p0; p1] = Some (a, b, cs) /\
    read_rows (s ++ more) center' = Some cs.
Proof.
  intros Hc Hp.
  pose proof Hc as Hc'.
  apply read_rows_pair in Hc as (lc & r0 & r1 & -> & Hlc & Hr0 & Hr1).
  apply read_rows_pair in Hp as (lp & q0 & q1 & -> & Hlp & Hq0 & Hq1).
  unfold centroidTracking_store.
  erewrite bind_ok by apply new_first.
  do 7 run.
  destruct (for_each_run s lp q0 q1 p0 (OSeq [VRef r0; VRef r1; VRef q1])
              (ORow (mkPoint (f32_of_Z 0) (f32_of_Z 0))) Hlp Hq0
              [r0; r1; q1] [c0; c1; p1]
              ltac:(repeat constructor; assumption)
              [] inf (VRef (length s + 2)) (mkPoint (f32_of_Z 0) (f32_of_Z 0)))
    as (m' & l' & v' & c' & Hrun & Hfold & Hv').
  { unfold read_row. now rewrite lookup_new. }
  cbn [map] in Hrun. erewrite bind_ok by exact Hrun. cbn [snd].
  run.
  rewrite centroidTracking_pair. fold search_init in Hfold. rewrite Hfold. cbn [snd].
  assert (Hrow : row v' (s ++ [OSeq [VRef r0; VRef r1; VRef q1]; OSeq (map VFloat l');
                               ORow (mkPoint (f32_of_Z 0) (f32_of_Z 0))]) =
                 (Ok c', s ++ [OSeq [VRef r0; VRef r1; VRef q1]; OSeq (map VFloat l');
                               ORow (mkPoint (f32_of_Z 0) (f32_of_Z 0))])).
  { revert Hv'. unfold read_row, row. destruct v' as [|lv]; [discriminate|].
    destruct (_ !! lv) as [[p|]|]; try discriminate. now intros [= ->]. }
  erewrite bind_ok
    by (eapply all_eq_at_run; [exact Hrow | eapply row_old; exact Hr1]).
  destruct (all_eq c' c1).
  - do 3 run. unfold ret.
    eexists _, _, _, _, _. split; [reflexivity|]. split; [reflexivity|].
    unfold read_rows. rewrite lookup_new. cbn [lookup list_lookup read_all].
    unfold read_row.
    rewrite !(lookup_app_l_Some _ _ _ _ Hr0), !(lookup_app_l_Some _ _ _ _ Hr1).
    reflexivity.
  - unfold ret.
    eexists _, _, _, _, _. split; [reflexivity|]. split; [reflexivity|].
    now apply read_rows_old.
Qed.

(** C10. [centroidTracking] leaves [previousCenter] as it was: whatever it
    is given, the store it ends in is the store it started from with new
    objects after it (the lists the function builds itself), so every object
    the caller holds, the previous centre pair in particular, is unchanged.
    Writing the new centres into the tracked state is not done here. *)
Theorem previousCenter_untouched {np : NumPy} clusterA clusterB center previousCenter
    (s : Store) :
  exists more,
    snd (centroidTracking_store clusterA clusterB center previousCenter s) =
      s ++ more /\
    match read_rows s previousCenter with
    | Some ps => read_rows (s ++ more) previousCenter = Some ps
    | None => True
    end.
Proof.
  destruct (store_only_grows clusterA clusterB center previousCenter s)
    as [more Hmore].
  exists more. split; [exact Hmore |].
  destruct (read_rows s previousCenter) as [ps|] eqn:E; [|exact I].
  now apply read_rows_old.
Qed.

(* ===================================================================== *)
(** ** [imageProcessing] and [contourClustering] *)
(* ===================================================================== *)

Lemma absdiff_row_lookup a : forall b d c x y,
  absdiff_row a b = Some d -> a !! c = Some x -> b !! c = Some y ->
  d !! c = Some (Z.abs (x - y)).
Proof.
  induction a as [|u a IH]; intros [|v b] d c x y; simpl; try discriminate.
  destruct (absdiff_row a b) as [r|] eqn:E; [|discriminate].
  intros [= <-]. destruct c as [|c]; simpl.
  - now intros [= ->] [= ->].
  - apply IH; assumption.
Qed.

Lemma absdiff_pixel a : forall b d r c x y,
  absdiff a b = Some d -> pixel a r c = Some x -> pixel b r c = Some y ->
  pixel d r c = Some (Z.abs (x - y)).
Proof.
  unfold pixel.
  induction a as [|ra a IH]; intros [|rb b] d r c x y; simpl; try discriminate.
  destruct (absdiff_row ra rb) as [rd|] eqn:Er; [|discriminate].
  destruct (absdiff a b) as [rest|] eqn:E; [|discriminate].
  intros [= <-]. destruct r as [|r]; simpl.
  - now apply absdiff_row_lookup.
  - now apply IH.
Qed.

Section PipelineFacts.
Context {cv : Cv2}.

Lemma read_run camera w r e :
  cv_read camera (ext w) = (r, e) ->
  read camera w = (Ok r, mkWorld e (calls w ++ [CallRead camera])).
Proof. unfold read. now intros ->. Qed.

(** C7. When the grab fails [imageProcessing] returns the status ['break']
    and nothing else, whatever [master] is: the only call made is the read
    itself, so the reference is neither looked at nor replaced and no
    delta, mask or contour is computed. *)
Theorem end_of_feed camera master w e' :
  cv_read camera (ext w) = (None, e') ->
  imageProcessing camera master w =
  (Ok (None, None, None, None, "break"%string),
   mkWorld e' (calls w ++ [CallRead camera])).
Proof.
  intros H. unfold imageProcessing.
  now rewrite (bind_ok _ _ _ _ _ (read_run _ _ _ _ H)).
Qed.

(** C5. With no reference yet ([master] is [None]) a grabbed frame is
    turned to grey and blurred, that image is returned as the new reference
    together with the status ['continue'], and there is no contour, no
    hierarchy and no list of frames; no difference is computed. *)
Theorem warm_up camera w frame0 e' :
  cv_read camera (ext w) = (Some frame0, e') ->
  imageProcessing camera None w =
  (Ok (Some (cv_GaussianBlur (cv_cvtColor_BGR2GRAY frame0) gaussianBlurKSize 0),
       None, None, None, "continue"%string),
   mkWorld e' (calls w ++ [CallRead camera; CallCvtColor frame0;
                           CallGaussianBlur (cv_cvtColor_BGR2GRAY frame0)])).
Proof.
  intros H. unfold imageProcessing.
  rewrite (bind_ok _ _ _ _ _ (read_run _ _ _ _ H)).
  unfold bind, cvtColor, GaussianBlur, call, ret, record; simpl.
  now rewrite <- !app_assoc.
Qed.

(** C6. For a grabbed frame and a reference of the same size the delta
    (frame 3) is, pixel by pixel, the absolute difference of the reference
    that came in and the blurred frame (frame 2), and the reference that
    goes out is that blurred frame. *)
Theorem delta_and_reference camera master w frame0 e' delta :
  cv_read camera (ext w) = (Some frame0, e') ->
  absdiff master
          (cv_GaussianBlur (cv_cvtColor_BGR2GRAY frame0) gaussianBlurKSize 0)
    = Some delta ->
  exists contours hierarchy frames w',
    imageProcessing camera (Some master) w =
      (Ok (Some (cv_GaussianBlur (cv_cvtColor_BGR2GRAY frame0)
                                 gaussianBlurKSize 0),
           Some contours, Some hierarchy, Some frames, "None"%string), w') /\
    frame2 frames =
      cv_GaussianBlur (cv_cvtColor_BGR2GRAY frame0) gaussianBlurKSize 0 /\
    frame3 frames = delta /\
    (forall r c x y,
        pixel master r c = Some x ->
        pixel (frame2 frames) r c = Some y ->
        pixel (frame3 frames) r c = Some (Z.abs (x - y))).
Proof.
  intros H Hd. unfold imageProcessing.
  rewrite (bind_ok _ _ _ _ _ (read_run _ _ _ _ H)).
  unfold bind, cvtColor, GaussianBlur, cv2_absdiff, threshold, erode, dilate,
    findContours, call, ret; simpl.
  rewrite Hd.
  eexists _, _, _, _. split; [reflexivity|]. simpl.
  split; [reflexivity|]. split; [reflexivity|].
  intros r c x y. now apply absdiff_pixel.
Qed.

(** The only way a grabbed frame is not processed: the reference and the
    frame differ in size and [cv2.absdiff] raises. *)
Lemma size_mismatch camera master w frame0 e' :
  cv_read camera (ext w) = (Some frame0, e') ->
  absdiff master
          (cv_GaussianBlur (cv_cvtColor_BGR2GRAY frame0) gaussianBlurKSize 0)
    = None ->
  fst (imageProcessing camera (Some master) w) = Raise cv2_error.
Proof.
  intros H Hd. unfold imageProcessing.
  rewrite (bind_ok _ _ _ _ _ (read_run _ _ _ _ H)).
  unfold bind, cvtColor, GaussianBlur, cv2_absdiff, call, ret; simpl.
  now rewrite Hd.
Qed.

Lemma length_np_float32 pts : length (np_float32 pts) = length pts.
Proof. apply length_map. Qed.

Lemma total_points_length contours :
  total_points contours = Z.of_nat (length (contourCoordinates contours)).
Proof.
  unfold total_points, contourCoordinates.
  induction contours as [|i contours IH]; simpl; [reflexivity|].
  rewrite length_app, length_map, IH. lia.
Qed.

Lemma kmeans_calls data K criteria attempts flags w :
  calls (snd (kmeans data K criteria attempts flags w)) =
  calls w ++ [CallKmeans data K].
Proof.
  unfold kmeans. destruct (cv_kmeans _ _ _ _ _ _) as [[res|] e]; reflexivity.
Qed.

Lemma contourClustering_calls contours criteria K multiTouch w :
  calls (snd (contourClustering contours criteria K multiTouch w)) =
  calls w ++ [CallKmeans (np_float32 (contourCoordinates contours)) K].
Proof.
  unfold contourClustering, bind.
  pose proof (kmeans_calls (np_float32 (contourCoordinates contours)) K criteria
                10 KMEANS_RANDOM_CENTERS w) as Hk.
  destruct (kmeans _ _ _ _ _ w) as [[[[r label] center]|e] w']; simpl in Hk;
    [|exact Hk].
  unfold index_mask, ret, raise.
  destruct multiTouch; repeat case_match; simplify_eq; exact Hk.
Qed.

Lemma contourClustering_run contours criteria K multiTouch w r label center e' :
  cv_kmeans (ext w) (np_float32 (contourCoordinates contours)) K criteria 10
            KMEANS_RANDOM_CENTERS = (Some (r, label, center), e') ->
  length label = length (contourCoordinates contours) ->
  contourClustering contours criteria K multiTouch w =
  (Ok (select (np_float32 (contourCoordinates contours)) (label_is 0 label),
       (if multiTouch
        then select (np_float32 (contourCoordinates contours)) (label_is 1 label)
        else []),
       center, r),
   mkWorld e' (calls w ++ [CallKmeans (np_float32 (contourCoordinates contours)) K])).
Proof.
  intros Hk Hl. unfold contourClustering, bind, kmeans. rewrite Hk.
  unfold index_mask, label_is. rewrite !length_map, !length_np_float32, Hl, Nat.eqb_refl.
  destruct multiTouch; reflexivity.
Qed.

(** Without multi-touch the only result [contourClustering] can return has
    an empty cluster B. *)
Lemma single_touch_outcomes contours criteria K w clusterA clusterB center r :
  fst (contourClustering contours criteria K false w) =
    Ok (clusterA, clusterB, center, r) ->
  clusterB = [].
Proof.
  unfold contourClustering, bind.
  destruct (kmeans _ _ _ _ _ w) as [[[[r' label] center']|e] w']; simpl;
    [|discriminate].
  unfold index_mask. destruct (_ =? _)%nat; simpl; [|discriminate].
  now intros [= _ <- _ _].
Qed.

(** C8. With multi-touch disabled, whenever the clusterer answers (one
    label per point) [contourClustering] returns an empty cluster B; and
    [clusterParams] gives the cluster count 1, against 2 with multi-touch
    enabled. *)
Theorem single_touch contours criteria K w r label center e' :
  cv_kmeans (ext w) (np_float32 (contourCoordinates contours)) K criteria 10
            KMEANS_RANDOM_CENTERS = (Some (r, label, center), e') ->
  length label = length (contourCoordinates contours) ->
  contourClustering contours criteria K false w =
    (Ok (select (np_float32 (contourCoordinates contours)) (label_is 0 label),
         [], center, r),
     mkWorld e' (calls w ++
                 [CallKmeans (np_float32 (contourCoordinates contours)) K])) /\
  snd (fst (fst (fst (fst (clusterParams false))))) = 1 /\
  snd (fst (fst (fst (fst (clusterParams true))))) = 2.
Proof.
  intros Hk Hl. split; [|split; reflexivity].
  exact (contourClustering_run contours criteria K false w r label center e'
           Hk Hl).
Qed.

(** C3, amended.  For a set of contours with more points than the budget
    [numRandomContours], [contourClustering] hands the clusterer every one
    of them, converted to [float32] and in order: the clusterer receives as
    many points as the contours have, hence more than the budget.
    [contourClustering] draws no sample. *)
Theorem clusterer_receives_every_point contours criteria K multiTouch w :
  numRandomContours < total_points contours ->
  exists data,
    calls (snd (contourClustering contours criteria K multiTouch w)) =
      calls w ++ [CallKmeans data K] /\
    data = np_float32 (contourCoordinates contours) /\
    Z.of_nat (length data) = total_points contours /\
    numRandomContours < Z.of_nat (length data).
Proof.
  intros H. exists (np_float32 (contourCoordinates contours)).
  split; [apply contourClustering_calls | split; [reflexivity |]].
  rewrite length_np_float32, <- total_points_length. auto.
Qed.

(** What a call of [contourClustering] ends in, read off the answer of the
    clusterer: [cv2.error] when it rejects the input, [IndexError] (line
    145) when it answers with another number of labels than there are
    points, the clusters otherwise. *)
Lemma contourClustering_outcome contours criteria K multiTouch w :
  fst (contourClustering contours criteria K multiTouch w) =
  match fst (cv_kmeans (ext w) (np_float32 (contourCoordinates contours)) K
                       criteria 10 KMEANS_RANDOM_CENTERS) with
  | None => Raise cv2_error
  | Some (r, label, center) =>
      if (length label =? length (contourCoordinates contours))%nat
      then Ok (select (np_float32 (contourCoordinates contours))
                      (label_is 0 label),
               (if multiTouch
                then select (np_float32 (contourCoordinates contours))
                            (label_is 1 label)
                else []),
               center, r)
      else Raise IndexError
  end.
Proof.
  unfold contourClustering, bind, kmeans.
  destruct (cv_kmeans _ _ _ _ _ _) as [[[[r label] center]|] e]; simpl;
    [|reflexivity].
  unfold index_mask, label_is.
  rewrite !length_map, !length_np_float32.
  destruct (_ =? _)%nat; [|reflexivity].
  destruct multiTouch; reflexivity.
Qed.

(** C4, amended.  For a set of contours with fewer points than
    [contourDetectionPoints], [contourClustering] still attempts the
    clustering: it calls the clusterer once, on all the points.  It returns
    the clusters when the clusterer answers with one label per point, and
    raises otherwise: [cv2.error] when the clusterer rejects the input,
    [IndexError] when the number of labels is not the number of points.
    There is no other outcome, and none that stands for no motion. *)
Theorem clustering_attempted_below_gate contours criteria K multiTouch w :
  total_points contours < contourDetectionPoints ->
  calls (snd (contourClustering contours criteria K multiTouch w)) =
    calls w ++ [CallKmeans (np_float32 (contourCoordinates contours)) K] /\
  fst (contourClustering contours criteria K multiTouch w) =
  match fst (cv_kmeans (ext w) (np_float32 (contourCoordinates contours)) K
                       criteria 10 KMEANS_RANDOM_CENTERS) with
  | None => Raise cv2_error
  | Some (r, label, center) =>
      if (length label =? length (contourCoordinates contours))%nat
      then Ok (select (np_float32 (contourCoordinates contours))
                      (label_is 0 label),
               (if multiTouch
                then select (np_float32 (contourCoordinates contours))
                            (label_is 1 label)
                else []),
               center, r)
      else Raise IndexError
  end.
Proof.
  intros _. split; [apply contourClustering_calls |].
  apply contourClustering_outcome.
Qed.

End PipelineFacts.

(* ===================================================================== *)
(** ** The statements on concrete data *)
(* ===================================================================== *)

Lemma end_of_feed_witness :
  cv_read (Cv2 := stub_cv2) tt (ext (stub_world [])) = (None, []) /\
  imageProcessing (cv := stub_cv2) tt (Some [[1; 2]; [3; 4]]) (stub_world []) =
  (Ok (None, None, None, None, "break"%string),
   mkWorld (cv := stub_cv2) [] [CallRead (cv := stub_cv2) tt]).
Proof.
  split; [reflexivity |].
  exact (end_of_feed (cv := stub_cv2) tt (Some [[1; 2]; [3; 4]])
           (stub_world []) [] eq_refl).
Defined.

Lemma warm_up_witness :
  cv_read (Cv2 := stub_cv2) tt (ext (stub_world [[[1; 2]; [3; 4]]])) =
    (Some [[1; 2]; [3; 4]], []) /\
  imageProcessing (cv := stub_cv2) tt None (stub_world [[[1; 2]; [3; 4]]]) =
  (Ok (Some [[1; 2]; [3; 4]], None, None, None, "continue"%string),
   mkWorld (cv := stub_cv2) []
     [CallRead (cv := stub_cv2) tt;
      CallCvtColor (cv := stub_cv2) [[1; 2]; [3; 4]];
      CallGaussianBlur (cv := stub_cv2) [[1; 2]; [3; 4]]]).
Proof.
  split; [reflexivity |].
  exact (warm_up (cv := stub_cv2) tt (stub_world [[[1; 2]; [3; 4]]])
           [[1; 2]; [3; 4]] [] eq_refl).
Defined.

Lemma delta_and_reference_witness :
  cv_read (Cv2 := stub_cv2) tt (ext (stub_world [[[10; 20]; [30; 40]]])) =
    (Some [[10; 20]; [30; 40]], []) /\
  absdiff [[12; 15]; [30; 0]] [[10; 20]; [30; 40]] = Some [[2; 5]; [0; 40]] /\
  exists contours hierarchy frames w',
    imageProcessing (cv := stub_cv2) tt (Some [[12; 15]; [30; 0]])
                    (stub_world [[[10; 20]; [30; 40]]]) =
      (Ok (Some [[10; 20]; [30; 40]], Some contours, Some hierarchy,
           Some frames, "None"%string), w') /\
    frame2 frames = [[10; 20]; [30; 40]] /\
    frame3 frames = [[2; 5]; [0; 40]] /\
    (forall r c x y,
        pixel [[12; 15]; [30; 0]] r c = Some x ->
        pixel (frame2 frames) r c = Some y ->
        pixel (frame3 frames) r c = Some (Z.abs (x - y))).
Proof.
  split; [reflexivity | split; [reflexivity |]].
  exact (delta_and_reference (cv := stub_cv2) tt [[12; 15]; [30; 0]]
           (stub_world [[[10; 20]; [30; 40]]]) [[10; 20]; [30; 40]] []
           [[2; 5]; [0; 40]] eq_refl eq_refl).
Defined.

Lemma single_touch_witness :
  cv_kmeans (Cv2 := stub_cv2) (ext (stub_world []))
            (np_float32 (contourCoordinates [row_contour 3])) 1
            default_criteria 10 KMEANS_RANDOM_CENTERS =
    (Some (f64_of_Z 0, [0; 0; 0], [pt 0 7]), []) /\
  length [0; 0; 0] = length (contourCoordinates [row_contour 3]) /\
  contourClustering (cv := stub_cv2) [row_contour 3] default_criteria 1 false
                    (stub_world []) =
    (Ok (select (np_float32 (contourCoordinates [row_contour 3]))
                (label_is 0 [0; 0; 0]),
         [], [pt 0 7], f64_of_Z 0),
     mkWorld (cv := stub_cv2) []
       ([] ++ [CallKmeans (cv := stub_cv2)
                 (np_float32 (contourCoordinates [row_contour 3])) 1])) /\
  snd (fst (fst (fst (fst (clusterParams false))))) = 1 /\
  snd (fst (fst (fst (fst (clusterParams true))))) = 2.
Proof.
  split; [reflexivity | split; [reflexivity |]].
  exact (single_touch (cv := stub_cv2) [row_contour 3] default_criteria 1
           (stub_world []) (f64_of_Z 0) [0; 0; 0] [pt 0 7] [] eq_refl eq_refl).
Defined.

(** The claim of C3 as the spec words it fails on a contour of 501 points:
    all 501, more than the budget of 500, reach the clusterer. *)
Lemma over_budget_reaches_clusterer :
  numRandomContours < total_points [row_contour 501] /\
  calls (snd (contourClustering (cv := stub_cv2) [row_contour 501]
                default_criteria 2 true (stub_world []))) =
    [CallKmeans (cv := stub_cv2)
       (np_float32 (contourCoordinates [row_contour 501])) 2] /\
  Z.of_nat (length (np_float32 (contourCoordinates [row_contour 501]))) = 501 /\
  ~ (501 <= numRandomContours).
Proof.
  split; [vm_compute; reflexivity |].
  split; [vm_compute; reflexivity |].
  split; [vm_compute; reflexivity |].
  vm_compute. intros H. now apply H.
Qed.

Lemma clusterer_receives_every_point_witness :
  numRandomContours < total_points [row_contour 501] /\
  exists data,
    calls (snd (contourClustering (cv := stub_cv2) [row_contour 501]
                  default_criteria 2 true (stub_world []))) =
      calls (stub_world []) ++ [CallKmeans (cv := stub_cv2) data 2] /\
    data = np_float32 (contourCoordinates [row_contour 501]) /\
    Z.of_nat (length data) = total_points [row_contour 501] /\
    numRandomContours < Z.of_nat (length data).
Proof.
  assert (H : numRandomContours < total_points [row_contour 501])
    by (vm_compute; reflexivity).
  split; [exact H |].
  exact (clusterer_receives_every_point (cv := stub_cv2) [row_contour 501]
           default_criteria 2 true (stub_world []) H).
Defined.

(** The claim of C4 as the spec words it fails on a contour of 3 points,
    far below the 650 of the gate: the clusterer is called on them and
    clusters come back. *)
Lemma below_gate_is_clustered :
  total_points [row_contour 3] < contourDetectionPoints /\
  contourClustering (cv := stub_cv2) [row_contour 3] default_criteria 2 true
                    (stub_world []) =
    (Ok ([pt 0 7; pt 1 7; pt 2 7], [], [pt 0 7; pt 0 7], f64_of_Z 0),
     mkWorld (cv := stub_cv2) []
       [CallKmeans (cv := stub_cv2) [pt 0 7; pt 1 7; pt 2 7] 2]) /\
  calls (snd (contourClustering (cv := stub_cv2) [row_contour 3]
                default_criteria 2 true (stub_world []))) <> [].
Proof.
  split; [vm_compute; reflexivity |].
  split; [vm_compute; reflexivity |].
  vm_compute. discriminate.
Qed.

Lemma clustering_attempted_below_gate_witness :
  total_points [row_contour 3] < contourDetectionPoints /\
  calls (snd (contourClustering (cv := stub_cv2) [row_contour 3]
                default_criteria 2 true (stub_world []))) =
    calls (stub_world []) ++
    [CallKmeans (cv := stub_cv2)
       (np_float32 (contourCoordinates [row_contour 3])) 2] /\
  fst (contourClustering (cv := stub_cv2) [row_contour 3] default_criteria 2
         true (stub_world [])) =
    Ok ([pt 0 7; pt 1 7; pt 2 7], [], [pt 0 7; pt 0 7], f64_of_Z 0).
Proof.
  assert (H : total_points [row_contour 3] < contourDetectionPoints)
    by (vm_compute; reflexivity).
  split; [exact H |].
  exact (clustering_attempted_below_gate (cv := stub_cv2) [row_contour 3]
           default_criteria 2 true (stub_world []) H).
Defined.

(** A run of [centroidTracking] on a store: the centres at positions 0-2,
    the previous centres at 3-5, the clusters at 6 and 7.  The second
    centre is nearest, the references to the clusters come back swapped,
    the new list of centres is the object at position 11, and positions
    0-7 hold what they held. *)
Example centroidTracking_store_run :
  let s := [OSeq [VRef 1; VRef 2]; ORow (pt 9 9); ORow (pt 1 1);
            OSeq [VRef 4; VRef 5]; ORow (pt 0 0); ORow (pt 5 5);
            OSeq [VRef 1]; OSeq [VRef 2]] in
  exists more,
    centroidTracking_store (np := exact_squares) (VRef 6) (VRef 7) (VRef 0) (VRef 3) s =
      (Ok (VRef 7, VRef 6, VRef 11), s ++ more) /\
    read_rows (s ++ more) (VRef 11) = Some [pt 1 1; pt 9 9] /\
    read_rows (s ++ more) (VRef 3) = Some [pt 0 0; pt 5 5].
Proof.
  eexists. split; [vm_compute; reflexivity |].
  split; vm_compute; reflexivity.
Qed.

(* ===================================================================== *)
(** ** Integers through floats *)
(* ===================================================================== *)

Lemma digits2_size m : digits2_pos m = Pos.size m.
Proof. induction m; simpl; congruence. Qed.

Lemma digits2_iter m k :
  digits2_pos (Pos.iter xO m k) = (digits2_pos m + k)%positive.
Proof.
  induction k using Pos.peano_ind.
  - simpl. lia.
  - rewrite Pos.iter_succ. simpl. rewrite IHk. lia.
Qed.

Lemma iter_xO_pow m k : Zpos (Pos.iter xO m k) = Zpos m * 2 ^ Zpos k.
Proof.
  induction k using Pos.peano_ind.
  - simpl. lia.
  - rewrite Pos.iter_succ, Pos2Z.inj_succ, Z.pow_succ_r by lia.
    rewrite Pos2Z.inj_xO, IHk. lia.
Qed.

Section Exact.
Variables prec emax : Z.
Hypothesis Hprec : 0 < prec.
Hypothesis Hemax : prec <= emax.
Hypothesis Hemax2 : 2 <= emax.

(** An integer of at most [prec] bits is represented exactly: mantissa
    [m * 2^k], exponent [- k]. *)
Lemma binary_round_int s m :
  Zpos (digits2_pos m) <= prec ->
  exists mz k,
    binary_round prec emax s m 0 = S754_finite s mz (- k) /\
    0 <= k /\ Zpos mz = Zpos m * 2 ^ k.
Proof.
  intros Hd. unfold binary_round.
  set (d := Zpos (digits2_pos m)) in *.
  assert (Hfexp : fexp prec emax (d + 0) = d - prec).
  { unfold fexp, emin. unfold d. lia. }
  rewrite Hfexp.
  assert (exists mz, shl_align m 0 (d - prec) = (mz, d - prec) /\
                     Zpos (digits2_pos mz) = prec /\
                     Zpos mz = Zpos m * 2 ^ (prec - d)) as (mz & Hal & Hdz & Hmz).
  { unfold shl_align. rewrite Z.sub_0_r.
    destruct (d - prec) as [|p|p] eqn:E; try lia.
    - exists m. replace (prec - d) with 0 by lia. repeat split; fold d; lia.
    - exists (Pos.iter xO m p). split; [reflexivity|].
      rewrite digits2_iter, iter_xO_pow. split.
      + fold d. lia.
      + f_equal. f_equal. lia. }
  rewrite Hal. unfold binary_round_aux, shr_fexp.
  cbn [Zdigits2]. rewrite Hdz.
  replace (fexp prec emax (prec + (d - prec))) with (d - prec)
    by (unfold fexp, emin; unfold d; lia).
  rewrite Z.sub_diag. cbn [shr shr_record_of_loc loc_of_shr_record shr_m round_nearest_even Zdigits2].
  rewrite Hdz.
  replace (fexp prec emax (prec + (d - prec))) with (d - prec)
    by (unfold fexp, emin; unfold d; lia).
  rewrite Z.sub_diag. cbn [shr shr_record_of_loc shr_m].
  replace (d - prec <=? emax - prec) with true by (symmetry; apply Z.leb_le; unfold d in *; lia).
  exists mz, (prec - d). split; [f_equal; lia|]. split; [lia | exact Hmz].
Qed.

Lemma digits_bound m : Zpos m < 2 ^ prec -> Zpos (digits2_pos m) <= prec.
Proof.
  intros Hz. rewrite digits2_size.
  pose proof (Pos.size_le m) as Hs.
  destruct (Z_le_gt_dec (Zpos (Pos.size m)) prec) as [|Hgt]; [assumption|].
  exfalso.
  assert (2 ^ (prec + 1) <= 2 ^ Zpos (Pos.size m))
    by (apply Z.pow_le_mono_r; lia).
  rewrite Z.pow_add_r in * by lia.
  assert (Zpos (2 ^ Pos.size m) <= Zpos m~0)
    by (apply Pos2Z.pos_le_pos; exact Hs).
  rewrite Pos2Z.inj_pow in *. lia.
Qed.

Lemma round_finite_int s mz m k :
  0 <= k -> Zpos mz = Zpos m * 2 ^ k ->
  round_half_even (S754_finite s mz (- k)) = if s then - Zpos m else Zpos m.
Proof.
  intros Hk Hmz. unfold round_half_even.
  destruct (Z.eq_dec k 0) as [->|Hk0].
  - simpl. destruct s; lia.
  - replace (0 <=? - k) with false by (symmetry; apply Z.leb_gt; lia).
    rewrite Z.opp_involutive, Hmz, Z.div_mul, Z.mod_mul by lia.
    replace (2 * 0 ?= 2 ^ k) with Lt
      by (symmetry; apply Z.compare_lt_iff;
          pose proof (Z.pow_pos_nonneg 2 k); lia).
    reflexivity.
Qed.

Lemma trunc_finite_int s mz m k :
  0 <= k -> Zpos mz = Zpos m * 2 ^ k ->
  trunc (S754_finite s mz (- k)) = if s then - Zpos m else Zpos m.
Proof.
  intros Hk Hmz. unfold trunc.
  destruct (Z.eq_dec k 0) as [->|Hk0].
  - simpl. destruct s; lia.
  - replace (0 <=? - k) with false by (symmetry; apply Z.leb_gt; lia).
    now rewrite Z.opp_involutive, Hmz, Z.div_mul by lia.
Qed.

(** Made a float and back, by truncation or by rounding, an integer of at
    most [prec] bits is itself. *)
Lemma to_int_of_Z conv z :
  (forall s mz m k, 0 <= k -> Zpos mz = Zpos m * 2 ^ k ->
     conv (S754_finite s mz (- k)) = if s then - Zpos m else Zpos m) ->
  conv (S754_zero false) = 0 ->
  Z.abs z < 2 ^ prec ->
  to_int conv (binary_normalize prec emax z 0 false) = Done z.
Proof.
  intros Hconv H0 Hz.
  destruct z as [|m|m]; unfold binary_normalize.
  - simpl. now rewrite H0.
  - destruct (binary_round_int false m (digits_bound m Hz))
      as (mz & k & -> & Hk & Hmz).
    simpl to_int. now rewrite (Hconv false mz m k).
  - destruct (binary_round_int true m (digits_bound m Hz))
      as (mz & k & -> & Hk & Hmz).
    simpl to_int. now rewrite (Hconv true mz m k).
Qed.

Lemma round_of_Z z :
  Z.abs z < 2 ^ prec ->
  round_half_even (binary_normalize prec emax z 0 false) = z.
Proof.
  intros Hz. destruct z as [|m|m]; [reflexivity| |]; unfold binary_normalize.
  - destruct (binary_round_int false m (digits_bound m Hz))
      as (mz & k & -> & Hk & Hmz).
    now rewrite (round_finite_int false mz m k).
  - destruct (binary_round_int true m (digits_bound m Hz))
      as (mz & k & -> & Hk & Hmz).
    now rewrite (round_finite_int true mz m k).
Qed.
End Exact.

Lemma int_round_f32 z : Z.abs z < 2 ^ 24 -> int_round (f32_of_Z z) = Done z.
Proof.
  intros Hz. unfold int_round, f32_of_Z.
  apply to_int_of_Z; unfold prec32, emax32; try lia; auto.
  intros. now apply round_finite_int.
Qed.

Lemma py_int_f64 z : Z.abs z < 2 ^ 53 -> py_int (PyFloat (f64_of_Z z)) = Done z.
Proof.
  intros Hz. unfold py_int, f64_of_Z.
  apply to_int_of_Z; unfold prec64, emax64; try lia; auto.
  intros. now apply trunc_finite_int.
Qed.


(* ===================================================================== *)
(** ** [decode_fourcc] *)
(* ===================================================================== *)

Lemma land_255 n : Z.land n 255 = n mod 256.
Proof. exact (Z.land_ones n 8 ltac:(lia)). Qed.

Lemma chr_code c : chr (Z.of_N (Ascii.N_of_ascii c)) = c.
Proof. unfold chr. now rewrite N2Z.id, Ascii.ascii_N_embedding. Qed.

Lemma code_range c : 0 <= Z.of_N (Ascii.N_of_ascii c) < 256.
Proof. pose proof (Ascii.N_ascii_bounded c). lia. Qed.

(** The four bytes of a packed code. *)
Lemma packed_bytes a b c d :
  0 <= a < 256 -> 0 <= b < 256 -> 0 <= c < 256 -> 0 <= d < 256 ->
  let n := to_int32 (a + Z.shiftl b 8 + Z.shiftl c 16 + Z.shiftl d 24) in
  Z.land (Z.shiftr n (8 * 0)) 255 = a /\
  Z.land (Z.shiftr n (8 * 1)) 255 = b /\
  Z.land (Z.shiftr n (8 * 2)) 255 = c /\
  Z.land (Z.shiftr n (8 * 3)) 255 = d.
Proof.
  intros Ha Hb Hc Hd. cbv zeta.
  rewrite !land_255, !Z.shiftr_div_pow2, !Z.shiftl_mul_pow2 by lia.
  unfold to_int32.
  change (2 ^ (8 * 0)) with 1. change (2 ^ (8 * 1)) with 256.
  change (2 ^ (8 * 2)) with 65536. change (2 ^ (8 * 3)) with 16777216.
  change (2 ^ 8) with 256. change (2 ^ 16) with 65536.
  change (2 ^ 24) with 16777216. change (2 ^ 31) with 2147483648.
  change (2 ^ 32) with 4294967296.
  repeat split; Z.div_mod_to_equations; lia.
Qed.

Lemma utf8_first_byte_range c : 0 <= utf8_first_byte c < 256.
Proof.
  destruct c as [[] [] [] [] [] [] [] []]; vm_compute;
    (split; [discriminate | reflexivity]).
Qed.

Lemma utf8_first_byte_ascii c :
  is_ascii c = true -> utf8_first_byte c = Z.of_N (Ascii.N_of_ascii c).
Proof.
  unfold is_ascii, utf8_first_byte. intros H%N.ltb_lt.
  destruct (Z.ltb_spec (Z.of_N (Ascii.N_of_ascii c)) 128); [reflexivity | lia].
Qed.

(** Whatever the four characters, the code packed from them decodes to the
    four bytes the binding handed to OpenCV. *)
Lemma decode_fourcc_of_packed c1 c2 c3 c4 :
  decode_fourcc (PyInt (VideoWriter_fourcc c1 c2 c3 c4)) =
  Done (String (chr (utf8_first_byte c1))
       (String (chr (utf8_first_byte c2))
       (String (chr (utf8_first_byte c3))
       (String (chr (utf8_first_byte c4)) EmptyString)))).
Proof.
  unfold decode_fourcc, VideoWriter_fourcc, py_int, range4.
  cbn [map string_of_list_ascii].
  pose proof (utf8_first_byte_range c1) as H1.
  pose proof (utf8_first_byte_range c2) as H2.
  pose proof (utf8_first_byte_range c3) as H3.
  pose proof (utf8_first_byte_range c4) as H4.
  rewrite !(land_255 (utf8_first_byte _)), !Z.mod_small by lia.
  now destruct (packed_bytes _ _ _ _ H1 H2 H3 H4) as (-> & -> & -> & ->).
Qed.

(** X1. [decode_fourcc] undoes [cv2.VideoWriter_fourcc] on ASCII
    characters, such as the ['MJPG'] of line 73: the code packed from four
    of them decodes to those four characters, in order. *)
Theorem decode_fourcc_of_encoded c1 c2 c3 c4 :
  is_ascii c1 = true -> is_ascii c2 = true ->
  is_ascii c3 = true -> is_ascii c4 = true ->
  decode_fourcc (PyInt (VideoWriter_fourcc c1 c2 c3 c4)) =
  Done (String c1 (String c2 (String c3 (String c4 EmptyString)))).
Proof.
  intros H1 H2 H3 H4. rewrite decode_fourcc_of_packed.
  rewrite !utf8_first_byte_ascii by assumption.
  now rewrite !chr_code.
Qed.

Lemma decode_fourcc_of_encoded_witness :
  is_ascii "M"%char = true /\ is_ascii "J"%char = true /\
  is_ascii "P"%char = true /\ is_ascii "G"%char = true /\
  decode_fourcc
    (PyInt (VideoWriter_fourcc "M"%char "J"%char "P"%char "G"%char)) =
  Done "MJPG"%string.
Proof.
  split; [reflexivity | split; [reflexivity | split; [reflexivity |]]].
  split; [reflexivity |].
  exact (decode_fourcc_of_encoded "M"%char "J"%char "P"%char "G"%char
           eq_refl eq_refl eq_refl eq_refl).
Defined.

(** Beyond ASCII the round trip is lost: the character of code 233 is
    packed as the byte [0xC3] and decoded as the character of code 195. *)
Example decode_fourcc_beyond_ascii :
  decode_fourcc
    (PyInt (VideoWriter_fourcc (chr 233) (chr 233) (chr 233) (chr 233))) =
  Done (string_of_list_ascii [chr 195; chr 195; chr 195; chr 195]).
Proof. vm_compute. reflexivity. Qed.

Lemma byte_periodic n k i :
  0 <= i < 4 ->
  Z.land (Z.shiftr (n + k * 2 ^ 32) (8 * i)) 255 =
  Z.land (Z.shiftr n (8 * i)) 255.
Proof.
  intros Hi. rewrite !land_255, !Z.shiftr_div_pow2 by lia.
  assert (i = 0 \/ i = 1 \/ i = 2 \/ i = 3) as [->|[->|[->| ->]]] by lia.
  all: change (2 ^ 32) with 4294967296.
  - change (2 ^ (8 * 0)) with 1. Z.div_mod_to_equations; lia.
  - change (2 ^ (8 * 1)) with 256. Z.div_mod_to_equations; lia.
  - change (2 ^ (8 * 2)) with 65536. Z.div_mod_to_equations; lia.
  - change (2 ^ (8 * 3)) with 16777216. Z.div_mod_to_equations; lia.
Qed.

(** X3. [decode_fourcc] only looks at the low 32 bits of the code, and for
    every integer, negative ones included, it returns a string of four
    characters. *)
Theorem decode_fourcc_low_32_bits n k :
  decode_fourcc (PyInt (n + k * 2 ^ 32)) = decode_fourcc (PyInt n) /\
  exists s, decode_fourcc (PyInt n) = Done s /\ String.length s = 4%nat.
Proof.
  unfold decode_fourcc, py_int, range4. cbn [map]. split.
  - now rewrite !byte_periodic by lia.
  - eexists. split; reflexivity.
Qed.

(** X2. The code comes from [camera.get] as a double.  For every integer
    a double holds exactly (fewer than 54 bits, so every fourcc code)
    [decode_fourcc] gives for the double what it gives for the integer. *)
Theorem decode_fourcc_of_camera_get n :
  Z.abs n < 2 ^ 53 ->
  decode_fourcc (camera_get_value n) = decode_fourcc (PyInt n).
Proof.
  intros Hn. unfold decode_fourcc, camera_get_value.
  now rewrite (py_int_f64 n Hn).
Qed.

Lemma decode_fourcc_of_camera_get_witness :
  Z.abs (VideoWriter_fourcc "M"%char "J"%char "P"%char "G"%char) < 2 ^ 53 /\
  decode_fourcc (camera_get_value (VideoWriter_fourcc "M"%char "J"%char "P"%char "G"%char)) =
  decode_fourcc (PyInt (VideoWriter_fourcc "M"%char "J"%char "P"%char "G"%char)).
Proof.
  assert (H : Z.abs (VideoWriter_fourcc "M"%char "J"%char "P"%char "G"%char) < 2 ^ 53)
    by (vm_compute; reflexivity).
  split; [exact H |].
  exact (decode_fourcc_of_camera_get _ H).
Defined.

(* ===================================================================== *)
(** ** More on [imageProcessing] and [contourClustering] *)
(* ===================================================================== *)

Section More.
Context {cv : Cv2}.

(** What a returned result of [contourClustering] comes from. *)
Lemma contourClustering_ok contours criteria K multiTouch w
    clusterA clusterB center r :
  fst (contourClustering contours criteria K multiTouch w) =
    Ok (clusterA, clusterB, center, r) ->
  exists label e',
    cv_kmeans (ext w) (np_float32 (contourCoordinates contours)) K criteria 10
              KMEANS_RANDOM_CENTERS = (Some (r, label, center), e') /\
    length label = length (contourCoordinates contours) /\
    clusterA = select (np_float32 (contourCoordinates contours))
                      (label_is 0 label) /\
    clusterB = if multiTouch
               then select (np_float32 (contourCoordinates contours))
                           (label_is 1 label)
               else [].
Proof.
  unfold contourClustering, bind, kmeans.
  destruct (cv_kmeans _ _ _ _ _ _) as [[[[r' label] center']|] e'] eqn:Hk;
    simpl; [|discriminate].
  unfold index_mask, label_is. rewrite !length_map, !length_np_float32.
  destruct (length label =? length (contourCoordinates contours))%nat eqn:E;
    simpl; [|discriminate].
  apply Nat.eqb_eq in E.
  destruct multiTouch; simpl; intros [= <- <- <- <-]; exists label, e'; auto.
Qed.

(** Rows picked by a mask come from the array, in its order. *)
Lemma select_sublist {A} (a : list A) mask : sublist (select a mask) a.
Proof.
  revert mask. induction a as [|x a IH]; intros [|b mask]; cbn [select];
    try apply sublist_nil_l.
  destruct b; [apply sublist_skip | apply sublist_cons]; apply IH.
Qed.

(** With labels 0 and 1 the two masks split the array. *)
Lemma select_partition {A} (a : list A) label :
  length label = length a ->
  Forall (fun l => l = 0 \/ l = 1) label ->
  select a (label_is 0 label) ++ select a (label_is 1 label) ≡ₚ a.
Proof.
  intros Hl Hf. revert a Hl.
  induction Hf as [|l label [-> | ->] _ IH]; intros [|x a] Hl;
    try discriminate; try reflexivity; cbn [label_is map select];
    simpl Z.eqb; cbn iota.
  - simpl. f_equiv. apply IH. simpl in Hl. lia.
  - rewrite <- Permutation_middle. f_equiv. apply IH. simpl in Hl. lia.
Qed.

(** X13. In multi-touch mode the clusters [contourClustering] returns are
    rows of the point array in their order; when the clusterer labels every
    point 0 or 1 they split it: together they hold every contour point
    once. *)
Theorem clusters_partition_points contours criteria K w
    clusterA clusterB center r label e' :
  cv_kmeans (ext w) (np_float32 (contourCoordinates contours)) K criteria 10
            KMEANS_RANDOM_CENTERS = (Some (r, label, center), e') ->
  fst (contourClustering contours criteria K true w) =
    Ok (clusterA, clusterB, center, r) ->
  sublist clusterA (np_float32 (contourCoordinates contours)) /\
  sublist clusterB (np_float32 (contourCoordinates contours)) /\
  (Forall (fun l => l = 0 \/ l = 1) label ->
   clusterA ++ clusterB ≡ₚ np_float32 (contourCoordinates contours) /\
   Z.of_nat (length clusterA) + Z.of_nat (length clusterB) =
     total_points contours).
Proof.
  intros Hk Hrun.
  apply contourClustering_ok in Hrun as (label' & e'' & Hk' & Hl & -> & ->).
  rewrite Hk in Hk'. injection Hk' as <- <-.
  split; [apply select_sublist | split; [apply select_sublist |]].
  intros Hf.
  assert (Hp := select_partition (np_float32 (contourCoordinates contours))
                  label ltac:(now rewrite length_np_float32) Hf).
  split; [exact Hp |].
  apply Permutation_length in Hp. rewrite length_app in Hp.
  rewrite length_np_float32 in Hp. rewrite total_points_length. lia.
Qed.

Lemma absdiff_row_self a : absdiff_row a a = Some (map (fun _ => 0) a).
Proof.
  induction a as [|x a IH]; simpl; [reflexivity|].
  now rewrite IH, Z.sub_diag.
Qed.

Lemma absdiff_self a : absdiff a a = Some (map (map (fun _ => 0)) a).
Proof.
  induction a as [|row a IH]; simpl; [reflexivity|].
  now rewrite absdiff_row_self, IH.
Qed.

(** [imageProcessing] on a grabbed frame, in full. *)
Lemma imageProcessing_grabbed camera master w frame0 e :
  cv_read camera (ext w) = (Some frame0, e) ->
  let frame1 := cv_cvtColor_BGR2GRAY frame0 in
  let frame2 := cv_GaussianBlur frame1 gaussianBlurKSize 0 in
  let seen := calls w ++ [CallRead camera; CallCvtColor frame0;
                          CallGaussianBlur frame1] in
  imageProcessing camera master w =
  match master with
  | None =>
      (Ok (Some frame2, None, None, None, "continue"%string), mkWorld e seen)
  | Some m =>
      match absdiff m frame2 with
      | None => (Raise cv2_error, mkWorld e (seen ++ [CallAbsdiff m frame2]))
      | Some frame3 =>
          let frame4 :=
            cv_threshold_BINARY frame3 thresholdValue thresholdMaxValue in
          let eroded := cv_erode frame4 np_ones_2_2 erodingIter in
          let frame5 := cv_dilate eroded np_ones_2_2 dilatingIter in
          (Ok (Some frame2,
               Some (fst (cv_findContours_EXTERNAL_SIMPLE frame5)),
               Some (snd (cv_findContours_EXTERNAL_SIMPLE frame5)),
               Some (mkFrames frame0 frame1 frame2 frame3 frame4 frame5),
               "None"%string),
           mkWorld e (seen ++ [CallAbsdiff m frame2; CallThreshold frame3;
                               CallErode frame4; CallDilate eroded;
                               CallFindContours frame5]))
      end
  end.
Proof.
  intros H. cbv zeta. unfold imageProcessing.
  rewrite (bind_ok _ _ _ _ _ (read_run _ _ _ _ H)).
  unfold bind, cvtColor, GaussianBlur, cv2_absdiff, threshold, erode, dilate,
    findContours, call, ret, record; simpl.
  destruct master as [m|]; [|now rewrite <- !app_assoc].
  destruct (absdiff m _); simpl; now rewrite <- !app_assoc.
Qed.

(** X14. Two calls in a row, the second with the reference the first
    returned: when both frames blur to the same image the second call
    returns that image as reference again and its delta (frame 3) is zero
    at every pixel. *)
Theorem identical_frames_give_zero_delta camera w first second e1 e2 :
  cv_read camera (ext w) = (Some first, e1) ->
  cv_read camera e1 = (Some second, e2) ->
  cv_GaussianBlur (cv_cvtColor_BGR2GRAY second) gaussianBlurKSize 0 =
  cv_GaussianBlur (cv_cvtColor_BGR2GRAY first) gaussianBlurKSize 0 ->
  exists master w1 contours hierarchy frames w2,
    imageProcessing camera None w =
      (Ok (Some master, None, None, None, "continue"%string), w1) /\
    imageProcessing camera (Some master) w1 =
      (Ok (Some master, Some contours, Some hierarchy, Some frames,
           "None"%string), w2) /\
    frame3 frames = map (map (fun _ => 0)) master.
Proof.
  intros H1 H2 Hsame.
  rewrite (imageProcessing_grabbed camera None w first e1 H1).
  eexists _, _, _, _, _, _. split; [reflexivity|].
  rewrite (imageProcessing_grabbed camera _ (mkWorld e1 _) second e2 H2).
  rewrite Hsame, absdiff_self. split; reflexivity.
Qed.

(** X15. Whatever [imageProcessing] is given and however it ends, it has
    taken exactly one frame off the camera, first thing. *)
Theorem imageProcessing_reads_one_frame camera master w :
  ext (snd (imageProcessing camera master w)) = snd (cv_read camera (ext w)) /\
  exists rest,
    calls (snd (imageProcessing camera master w)) =
      calls w ++ CallRead camera :: rest /\
    forallb (fun c => negb (is_read c)) rest = true.
Proof.
  destruct (cv_read camera (ext w)) as [[frame0|] e] eqn:H.
  - rewrite (imageProcessing_grabbed camera master w frame0 e H).
    destruct master as [m|]; [destruct (absdiff m _)|]; simpl;
      (split; [reflexivity|]); eexists;
      rewrite <- ?app_assoc; simpl; split; reflexivity.
  - unfold imageProcessing.
    rewrite (bind_ok _ _ _ _ _ (read_run _ _ _ _ H)). simpl.
    split; [reflexivity|]. exists []. split; reflexivity.
Qed.
End More.

(* ===================================================================== *)
(** ** The display functions *)
(* ===================================================================== *)

Section DisplayFacts.
Context {F : Type} {pg : Pygame}.

Lemma eff_bind_done {S A B} (m : Eff S A) (k : A -> Eff S B) s a s' :
  m s = (Done a, s') -> eff_bind m k s = k a s'.
Proof. unfold eff_bind. now intros ->. Qed.

Lemma eff_bind_fail {S A B} (m : Eff S A) (k : A -> Eff S B) s e s' :
  m s = (Fail e, s') -> eff_bind m k s = (Fail e, s').
Proof. unfold eff_bind. now intros ->. Qed.

Lemma int_round_finite x :
  is_finite x = true -> int_round x = Done (round_half_even x).
Proof. destruct x; simpl; try discriminate; reflexivity. Qed.

Lemma c_int_small z : Z.abs z < 2 ^ 24 -> c_int z = true.
Proof.
  intros Hz. unfold c_int. apply andb_true_intro.
  split; [apply Z.leb_le | apply Z.ltb_lt]; lia.
Qed.

(** A drawable row and an accepted radius: the circle is drawn at the
    rounded coordinates, whatever the version of pygame. *)
Lemma draw_circle_drawable color p radius (scr : list (Shown (F := F))) :
  drawable p = true ->
  radius_ok radius = true ->
  draw_circle color p radius scr =
  (Done tt, scr ++ [circle_of color radius p]).
Proof.
  unfold drawable, radius_ok.
  intros [[[Hx Hy]%andb_prop Hcx]%andb_prop Hcy]%andb_prop Hr.
  unfold draw_circle, eff_bind, lift.
  rewrite (int_round_finite _ Hx), (int_round_finite _ Hy).
  rewrite circle_args_int; [reflexivity |].
  rewrite Hcx, Hcy. exact Hr.
Qed.

(** The loop over the rows of [data[k]], from row [length before] on. *)
Lemma draw_rows_from (data : list (Item (F := F))) k color before after :
  data !! k = Some (IPoints (before ++ after)) ->
  Forall (fun p => drawable p = true) after ->
  forall scr,
    draw_rows data k color (seq (length before) (length after)) scr =
    (Done tt, scr ++ map (circle_of color 1) after).
Proof.
  intros Hk. revert before Hk.
  induction after as [|p after IH]; intros before Hk Hfin scr.
  - simpl. unfold eff_ret. now rewrite app_nil_r.
  - inversion Hfin as [|? ? Hp Hrest]; subst.
    cbn [length seq draw_rows]. unfold eff_bind at 1, lift at 1, rows_at.
    rewrite Hk. unfold eff_bind at 1, lift at 1, item.
    rewrite lookup_app_r by lia. rewrite Nat.sub_diag. cbn [lookup list_lookup].
    erewrite eff_bind_done by (apply draw_circle_drawable; [exact Hp | reflexivity]).
    replace (S (length before)) with (length (before ++ [p]))
      by (rewrite length_app; simpl; lia).
    rewrite IH.
    + cbn [map]. now rewrite <- app_assoc.
    + now rewrite <- app_assoc.
    + exact Hrest.
Qed.

Lemma draw_rows_all (data : list (Item (F := F))) k color pts scr :
  data !! k = Some (IPoints pts) ->
  Forall (fun p => drawable p = true) pts ->
  draw_rows data k color (seq 0 (length pts)) scr =
  (Done tt, scr ++ map (circle_of color 1) pts).
Proof. intros Hk Hf. now apply (draw_rows_from data k color [] pts). Qed.

(** [displayContours] with contours shown: a red circle of radius 1 per
    row of [data[2]], then with multi-touch a blue one per row of
    [data[3]], each at the rounded coordinates of its row. *)
Lemma displayContours_shown (data : list (Item (F := F)))
    multiTouch clusterA clusterB scr :
  data !! 2%nat = Some (IPoints clusterA) ->
  Forall (fun p => drawable p = true) clusterA ->
  (multiTouch = true ->
   data !! 3%nat = Some (IPoints clusterB) /\
   Forall (fun p => drawable p = true) clusterB) ->
  displayContours data true multiTouch scr =
  (Done tt,
   scr ++ map (circle_of RED 1) clusterA ++
   (if multiTouch then map (circle_of BLUE 1) clusterB else [])).
Proof.
  intros HA HfA HB. unfold displayContours.
  unfold eff_bind at 1, lift at 1, rows_at. rewrite HA.
  erewrite eff_bind_done by (apply draw_rows_all; eassumption).
  destruct multiTouch.
  - destruct (HB eq_refl) as [HB3 HfB].
    unfold eff_bind at 1, lift at 1, rows_at. rewrite HB3.
    rewrite (draw_rows_all data 3 BLUE clusterB _ HB3 HfB).
    now rewrite <- app_assoc.
  - unfold eff_ret. now rewrite app_nil_r.
Qed.

Lemma select_np_float32 pts mask :
  select (np_float32 pts) mask = np_float32 (select pts mask).
Proof.
  unfold np_float32. revert mask.
  induction pts as [|p pts IH]; intros [|b mask]; try reflexivity.
  cbn [map select]. destruct b; cbn [map]; now rewrite IH.
Qed.

Lemma select_In {A} (a : list A) mask x : In x (select a mask) -> In x a.
Proof.
  revert mask. induction a as [|y a IH]; intros [|b mask]; cbn [select];
    try (intros []).
  destruct b; simpl; intros H; [destruct H as [H|H]|]; eauto.
Qed.

Lemma f32_of_Z_finite z : Z.abs z < 2 ^ 24 -> is_finite (f32_of_Z z) = true.
Proof.
  intros Hz. pose proof (int_round_f32 z Hz) as H. unfold int_round in H.
  destruct (f32_of_Z z); simpl in *; try discriminate; reflexivity.
Qed.

Lemma round_f32_of_Z z : Z.abs z < 2 ^ 24 -> round_half_even (f32_of_Z z) = z.
Proof.
  intros Hz. pose proof (int_round_f32 z Hz) as H. unfold int_round in H.
  destruct (f32_of_Z z); simpl in *; try discriminate; congruence.
Qed.

Lemma np_float32_drawable pts :
  Forall exact_pixel pts ->
  Forall (fun p => drawable p = true) (np_float32 pts).
Proof.
  induction 1 as [|p pts [Hx Hy] _ IH]; simpl; constructor; auto.
  unfold drawable; simpl.
  now rewrite !f32_of_Z_finite, !round_f32_of_Z, !c_int_small.
Qed.

Lemma circles_np_float32 color radius pts :
  Forall exact_pixel pts ->
  map (circle_of (F := F) color radius) (np_float32 pts) =
  map (fun p => Circle color p radius) pts.
Proof.
  induction 1 as [|[x y] pts [Hx Hy] _ IH]; simpl; [reflexivity|].
  unfold circle_of at 1; simpl in *.
  now rewrite !round_f32_of_Z, IH.
Qed.

Lemma Forall_select {A} (P : A -> Prop) (a : list A) mask :
  Forall P a -> Forall P (select a mask).
Proof.
  intros H. revert mask.
  induction H as [|x a Hx _ IH]; intros [|b mask]; cbn [select];
    try constructor.
  destruct b; [constructor|]; auto.
Qed.

(** X4. The contour pixels come back on the screen.  When the contour
    coordinates are below 2^24 in size, the clusters [contourClustering]
    returned, put at [data[2]] and [data[3]], are drawn by [displayContours]
    exactly at contour pixels, those of cluster A in red and then, with
    multi-touch, those of cluster B in blue, in the order of the contours:
    the conversion to [float32] and the rounding lose nothing. *)
Theorem contour_pixels_are_drawn {cv : Cv2} contours criteria K multiTouch w
    clusterA clusterB center r (data : list (Item (F := F))) scr :
  fst (contourClustering contours criteria K multiTouch w) =
    Ok (clusterA, clusterB, center, r) ->
  Forall exact_pixel (contourCoordinates contours) ->
  data !! 2%nat = Some (IPoints clusterA) ->
  data !! 3%nat = Some (IPoints clusterB) ->
  exists pixelsA pixelsB,
    sublist pixelsA (contourCoordinates contours) /\
    sublist pixelsB (contourCoordinates contours) /\
    clusterA = np_float32 pixelsA /\
    clusterB = np_float32 pixelsB /\
    displayContours data true multiTouch scr =
    (Done tt,
     scr ++ map (fun p => Circle RED p 1) pixelsA ++
     (if multiTouch then map (fun p => Circle BLUE p 1) pixelsB else [])).
Proof.
  intros Hrun Hex H2 H3.
  apply contourClustering_ok in Hrun as (label & e' & _ & _ & HA & HB).
  rewrite select_np_float32 in HA.
  exists (select (contourCoordinates contours) (label_is 0 label)),
         (if multiTouch
          then select (contourCoordinates contours) (label_is 1 label)
          else []).
  split; [apply select_sublist |].
  split; [destruct multiTouch; [apply select_sublist | apply sublist_nil_l] |].
  split; [exact HA |].
  assert (HB' : clusterB =
                np_float32 (if multiTouch
                            then select (contourCoordinates contours)
                                        (label_is 1 label)
                            else [])).
  { destruct multiTouch; [now rewrite <- select_np_float32 | exact HB]. }
  split; [exact HB' |].
  subst clusterA. rewrite HB' in H3.
  rewrite (displayContours_shown data multiTouch _
             (np_float32 (if multiTouch
                          then select (contourCoordinates contours)
                                      (label_is 1 label)
                          else [])) scr H2).
  - rewrite circles_np_float32 by now apply Forall_select.
    destruct multiTouch; [|reflexivity].
    now rewrite circles_np_float32 by now apply Forall_select.
  - apply np_float32_drawable. now apply Forall_select.
  - intros ->. split; [exact H3|].
    apply np_float32_drawable. now apply Forall_select.
Qed.

(** [displayCentroid] when the centres are at [data[cidx]]. *)
Lemma displayCentroid_rows (data : list (Item (F := F))) (sContours : bool) cSize
    multiTouch rows row_0 scr :
  data !! (if sContours then 4 else 2)%nat = Some (IPoints rows) ->
  rows !! 0%nat = Some row_0 ->
  drawable row_0 = true ->
  radius_ok cSize = true ->
  displayCentroid data sContours true cSize multiTouch scr =
  if multiTouch then
    match rows !! 1%nat with
    | Some row_1 =>
        draw_circle GOLD row_1 cSize (scr ++ [circle_of GOLD cSize row_0])
    | None => (Fail PyIndexError, scr ++ [circle_of GOLD cSize row_0])
    end
  else (Done tt, scr ++ [circle_of GOLD cSize row_0]).
Proof.
  intros Hd H0 Hf Hr. unfold displayCentroid.
  destruct sContours; cbv beta iota in Hd; cbn [negb]; cbv beta iota zeta;
    unfold eff_bind, lift, rows_at, item;
    rewrite Hd; cbv beta iota; rewrite H0; cbv beta iota;
    rewrite (draw_circle_drawable GOLD row_0 cSize scr Hf Hr); cbv beta iota;
    (destruct multiTouch; [|reflexivity]);
    rewrite ?Hd; cbv beta iota; destruct (rows !! 1%nat); reflexivity.
Qed.

(** X6. With a centre array of one row, as the clusterer returns for one
    cluster, a row that pygame can draw (finite, the rounded coordinates
    within a C [int]) and a radius it accepts, [displayCentroid] draws the
    one gold circle when multi-touch is off; with multi-touch on it draws
    that circle and then raises [IndexError] on the missing second row. *)
Theorem displayCentroid_one_row (data : list (Item (F := F))) (sContours : bool) cSize
    row_0 scr :
  data !! (if sContours then 4 else 2)%nat = Some (IPoints [row_0]) ->
  drawable row_0 = true ->
  radius_ok cSize = true ->
  displayCentroid data sContours true cSize false scr =
    (Done tt, scr ++ [circle_of GOLD cSize row_0]) /\
  displayCentroid data sContours true cSize true scr =
    (Fail PyIndexError, scr ++ [circle_of GOLD cSize row_0]).
Proof.
  intros Hd Hf Hr. split.
  - exact (displayCentroid_rows data sContours cSize false [row_0] row_0 scr
             Hd eq_refl Hf Hr).
  - exact (displayCentroid_rows data sContours cSize true [row_0] row_0 scr
             Hd eq_refl Hf Hr).
Qed.

Lemma imshow_frame (data : list (Item (F := F))) fidx frames k mat winname scr :
  data !! fidx = Some (IFrames frames) ->
  frames !! k = Some mat ->
  imshow winname data fidx k scr = (Done tt, scr ++ [Imshow winname mat]).
Proof.
  intros Hd Hk. unfold imshow, eff_bind, lift, frames_at, item.
  now rewrite Hd, Hk.
Qed.

Lemma displayAllFrames_frames (data : list (Item (F := F)))
    (sContours sCentroid : bool) f0 f1 f2 f3 f4 f5 more scr :
  data !! (2 + (if sContours then 2 else 0) + (if sCentroid then 1 else 0))%nat
    = Some (IFrames (f0 :: f1 :: f2 :: f3 :: f4 :: f5 :: more)) ->
  displayAllFrames data sContours sCentroid true scr =
  (Done tt,
   scr ++ [Imshow "Frame0: Raw" f0; Imshow "Frame1: Gray" f1;
           Imshow "Frame2: Blur" f2; Imshow "Frame3: Delta" f3;
           Imshow "Frame4: Threshold" f4; Imshow "Frame5: Dialated" f5]).
Proof.
  intros Hd. unfold displayAllFrames. cbv zeta.
  assert (Hd' : data !! (if negb sContours && negb sCentroid then 2
                         else if negb sCentroid then 4
                         else if negb sContours then 3 else 5)%nat
                = Some (IFrames (f0 :: f1 :: f2 :: f3 :: f4 :: f5 :: more))).
  { destruct sContours, sCentroid; exact Hd. }
  repeat (erewrite eff_bind_done
            by (eapply imshow_frame; [exact Hd' | reflexivity])).
  erewrite imshow_frame by (try exact Hd'; reflexivity).
  now rewrite <- !app_assoc.
Qed.

(** X5. The three display functions agree on the list [data]: two
    entries they do not look at, then the two clusters when contours are
    shown, the centres when the centroid is shown, then the frames.  On
    such a list whose rows pygame can draw (finite, the rounded coordinates
    within a C [int]), with a radius it accepts and for every choice of the
    flags, [displayContours] draws the clusters, [displayCentroid] the
    first (with multi-touch also the second) centre, and [displayAllFrames]
    shows the six frames under their window names. *)
Theorem display_layout (first second : Item (F := F))
    (sContours sCentroid multiTouch : bool) clusterA clusterB c0 c1 crest
    f0 f1 f2 f3 f4 f5 cSize scr :
  Forall (fun p => drawable p = true) clusterA ->
  Forall (fun p => drawable p = true) clusterB ->
  drawable c0 = true ->
  drawable c1 = true ->
  radius_ok cSize = true ->
  let data := layout first second sContours sCentroid clusterA clusterB
                     (c0 :: c1 :: crest) [f0; f1; f2; f3; f4; f5] in
  displayContours data sContours multiTouch scr =
    (Done tt,
     scr ++
     (if sContours
      then map (circle_of RED 1) clusterA ++
           (if multiTouch then map (circle_of BLUE 1) clusterB else [])
      else [])) /\
  displayCentroid data sContours sCentroid cSize multiTouch scr =
    (Done tt,
     scr ++
     (if sCentroid
      then circle_of GOLD cSize c0 ::
           (if multiTouch then [circle_of GOLD cSize c1] else [])
      else [])) /\
  displayAllFrames data sContours sCentroid true scr =
    (Done tt,
     scr ++ [Imshow "Frame0: Raw" f0; Imshow "Frame1: Gray" f1;
             Imshow "Frame2: Blur" f2; Imshow "Frame3: Delta" f3;
             Imshow "Frame4: Threshold" f4; Imshow "Frame5: Dialated" f5]).
Proof.
  intros HA HB H0 H1 Hr. cbv zeta. split; [|split].
  - destruct sContours.
    + apply displayContours_shown; [destruct sCentroid; reflexivity | exact HA |].
      intros _. split; [destruct sCentroid; reflexivity | exact HB].
    + unfold displayContours, eff_ret. now rewrite app_nil_r.
  - destruct sCentroid.
    + assert (Hd : layout first second sContours true clusterA clusterB
                          (c0 :: c1 :: crest) [f0; f1; f2; f3; f4; f5]
                     !! (if sContours then 4 else 2)%nat =
                   Some (IPoints (c0 :: c1 :: crest)))
        by (destruct sContours; reflexivity).
      rewrite (displayCentroid_rows _ sContours cSize multiTouch
                 (c0 :: c1 :: crest) c0 scr Hd eq_refl H0 Hr).
      destruct multiTouch; [|reflexivity]. cbn [lookup list_lookup].
      rewrite (draw_circle_drawable GOLD c1 cSize _ H1 Hr).
      now rewrite <- app_assoc.
    + unfold displayCentroid, eff_ret. now rewrite app_nil_r.
  - apply (displayAllFrames_frames _ sContours sCentroid f0 f1 f2 f3 f4 f5 []).
    destruct sContours, sCentroid; reflexivity.
Qed.

(** X7. For positions that pygame can draw (finite, the rounded
    coordinates within a C [int]) and a size it accepts, [displayInput]
    draws the first touch in red and, with multi-touch, the second in blue.
    Without multi-touch the second position is not looked at and may be
    [None]; with multi-touch a [None] raises [TypeError] once the first
    circle is drawn. *)
Theorem displayInput_second_touch minCoordinatesClusterA
    minCoordinatesClusterB inputSize (scr : list (Shown (F := F))) :
  drawable minCoordinatesClusterA = true ->
  radius_ok inputSize = true ->
  displayInput minCoordinatesClusterA minCoordinatesClusterB inputSize false
               scr =
    (Done tt, scr ++ [circle_of RED inputSize minCoordinatesClusterA]) /\
  displayInput minCoordinatesClusterA None inputSize true scr =
    (Fail PyTypeError,
     scr ++ [circle_of RED inputSize minCoordinatesClusterA]) /\
  (forall b, drawable b = true ->
     displayInput minCoordinatesClusterA (Some b) inputSize true scr =
     (Done tt, scr ++ [circle_of RED inputSize minCoordinatesClusterA;
                       circle_of BLUE inputSize b])).
Proof.
  intros HA Hr. unfold displayInput.
  split; [|split; [|intros b Hb]];
    erewrite eff_bind_done by (apply draw_circle_drawable; [exact HA | exact Hr]);
    try reflexivity.
  rewrite (draw_circle_drawable BLUE b inputSize _ Hb Hr).
  now rewrite <- app_assoc.
Qed.
End DisplayFacts.

(* ===================================================================== *)
(** ** More on [centroidTracking] *)
(* ===================================================================== *)

Section MoreTracking.
Context {np : NumPy}.

(** [centroidTracking] on arrays of at least two rows: only the first two
    rows of each take part. *)
Lemma centroidTracking_rows {C} (clusterA clusterB : C) c0 c1 crest p0 p1 prest :
  centroidTracking clusterA clusterB (c0 :: c1 :: crest) (p0 :: p1 :: prest) =
  if all_eq (snd (fold_left (search_step p0) [c0; c1; p1] search_init)) c1
  then Some (clusterB, clusterA, [c1; c0])
  else Some (clusterA, clusterB, c0 :: c1 :: crest).
Proof.
  unfold centroidTracking. cbn [lookup list_lookup app].
  destruct (fold_left _ _ _) as [[m l] c]. reflexivity.
Qed.

(** X8. [centroidTracking] raises [IndexError] whenever [center] or
    [previousCenter] has fewer than two rows, as the centre array of a
    single cluster has: line 162 reads [center[0]], [center[1]] and
    [previousCenter[1]] before anything else is done. *)
Theorem centroidTracking_needs_two_rows {C} (clusterA clusterB : C)
    center previousCenter :
  (length center < 2)%nat \/ (length previousCenter < 2)%nat ->
  centroidTracking clusterA clusterB center previousCenter = None.
Proof.
  destruct center as [|c0 [|c1 crest]], previousCenter as [|p0 [|p1 prest]];
    try reflexivity.
  simpl. lia.
Qed.

(** The distance of a row of finite scalars from itself is [+0]: both
    differences are [+0], and so are their squares. *)
Lemma distance_self p :
  is_finite (px p) = true -> is_finite (py p) = true ->
  distance p p = S754_zero false.
Proof.
  intros Hx Hy. unfold distance.
  assert (Hsub : forall x, is_finite x = true ->
                           f32_sub x x = S754_zero false).
  { intros [[]|[]| |s m e]; try discriminate; intros _; try reflexivity.
    unfold f32_sub; cbn [SFsub SFadd SFopp].
    match goal with
    | |- binary_normalize _ _ (?a - ?a) _ _ = _ =>
        replace (a - a) with 0 by (symmetry; apply Z.sub_diag)
    end.
    reflexivity. }
  rewrite !Hsub, f32_pow2_zero by assumption. reflexivity.
Qed.

(** X9. Two touches that stay where they were keep their identity
    whichever way the clusterer numbers them: with the previous centres
    [[p0, p1]], [p0] nearer to itself than to [p1], the centres [[p0, p1]]
    come back as they are and the centres [[p1, p0]] come back swapped,
    so that [[p0, p1]] is returned both times. *)
Theorem stationary_touches_keep_identity {C} (clusterA clusterB : C) p0 p1 :
  f_ltb (distance p0 p0) (distance p0 p1) = true ->
  centroidTracking clusterA clusterB [p0; p1] [p0; p1] =
    Some (clusterA, clusterB, [p0; p1]) /\
  centroidTracking clusterA clusterB [p1; p0] [p0; p1] =
    Some (clusterB, clusterA, [p0; p1]).
Proof.
  intros H. split.
  - apply (keep_when_different _ _ _ _ _ _ 0%nat p0); [|reflexivity|].
    + unfold nearest. cbn [map]. rewrite argmin3.
      rewrite (f_ltb_inf _ _ H), (f_ltb_asym _ _ H). reflexivity.
    + destruct (all_eq p0 p1) eqn:E; [|reflexivity].
      rewrite (all_eq_distance p0 _ _ E), f_ltb_irrefl in H. discriminate.
  - apply (swap_when_equal _ _ _ _ _ _ 1%nat p0 (nearest_second _ _ _ _ H H)
             eq_refl).
    destruct (f_ltb_number _ _ H) as [Hn _].
    apply distance_number in Hn as [Hx Hy]. now apply all_eq_refl.
Qed.

(** The loop of lines 167-172 from any state: the list of distances grows
    by one per candidate, and either nothing was below the minimum it
    started from, or it ends on a candidate below that minimum that no
    candidate is strictly nearer than. *)
Lemma search_invariant p0 cands : forall m0 l0 c0,
  let r := fold_left (search_step p0) cands (m0, l0, c0) in
  snd (fst r) = l0 ++ map (distance p0) cands /\
  ((fst (fst r) = m0 /\ snd r = c0 /\
    Forall (fun i => f_ltb (distance p0 i) m0 = false) cands) \/
   (In (snd r) cands /\ fst (fst r) = distance p0 (snd r) /\
    f_ltb (distance p0 (snd r)) m0 = true /\
    Forall (fun i => f_ltb (distance p0 i) (distance p0 (snd r)) = false)
           cands)).
Proof.
  induction cands as [|i cands IH]; intros m0 l0 c0; cbn [fold_left map].
  - cbv zeta. simpl. rewrite app_nil_r. split; [reflexivity|]. left. auto.
  - rewrite search_step_eq. cbv zeta.
    destruct (f_ltb (distance p0 i) m0) eqn:Hi.
    + destruct (IH (distance p0 i) (l0 ++ [distance p0 i]) i) as [Hl Hm].
      split; [now rewrite Hl, <- app_assoc|]. right.
      destruct Hm as [(Hm & Hc & Hall) | (Hin & Hm & Hlt & Hall)].
      * rewrite Hc, Hm. repeat split; auto.
        -- now left.
        -- constructor; [apply f_ltb_irrefl | exact Hall].
      * repeat split; auto.
        -- now right.
        -- now apply (f_ltb_trans _ (distance p0 i)).
        -- constructor; [now apply f_ltb_asym | exact Hall].
    + destruct (IH m0 (l0 ++ [distance p0 i]) c0) as [Hl Hm].
      split; [now rewrite Hl, <- app_assoc|].
      destruct Hm as [(Hm & Hc & Hall) | (Hin & Hm & Hlt & Hall)].
      * left. repeat split; auto.
      * right. repeat split; auto.
        -- now right.
        -- constructor; [|exact Hall].
           match goal with
           | |- f_ltb ?a ?b = false => destruct (f_ltb a b) eqn:E
           end; [|reflexivity].
           rewrite (f_ltb_trans _ _ _ E Hlt) in Hi. discriminate.
Qed.

(** X11. The loop of lines 167-172 finds a minimum.  After it
    [distanceListCenter] holds the distance of every candidate, in order,
    and either no distance was below infinity, and then [minDistance] is
    still infinity and [minCoordinatesCenter] still [[0, 0]], or
    [minCoordinatesCenter] is one of the candidates, [minDistance] is its
    distance, and no candidate is strictly nearer. *)
Theorem search_finds_minimum p0 cands :
  let '(minDistance, distanceListCenter, minCoordinatesCenter) :=
    fold_left (search_step p0) cands search_init in
  distanceListCenter = map (distance p0) cands /\
  ((minDistance = inf /\ minCoordinatesCenter = pt 0 0 /\
    Forall (fun i => f_ltb (distance p0 i) inf = false) cands) \/
   (In minCoordinatesCenter cands /\
    minDistance = distance p0 minCoordinatesCenter /\
    f_ltb minDistance inf = true /\
    Forall (fun i => f_ltb (distance p0 i) minDistance = false) cands)).
Proof.
  pose proof (search_invariant p0 cands inf [] (pt 0 0)) as H.
  cbv zeta in H. change (inf, [], pt 0 0) with search_init in H.
  destruct (fold_left (search_step p0) cands search_init) as [[m l] c].
  simpl in H. destruct H as [Hl H]. split; [exact Hl|].
  destruct H as [(-> & -> & Hall) | (Hin & -> & Hlt & Hall)]; auto.
Qed.

(** The centre pair [clusterParams] starts the tracking with. *)
Lemma initial_center_rows multiTouch :
  np_float32 (initial_center multiTouch) = [pt 0 0; pt 0 0].
Proof. destruct multiTouch; reflexivity. Qed.

(** X10. On the first tracked frame, when [previousCenter] is the centre
    pair [clusterParams] returned ([[0, 0], [0, 0]]), nothing is swapped as
    long as [center[1]] is not at the origin (the origin is nearer to
    itself than to [center[1]]). *)
Theorem first_frame_keeps_labels {C} (clusterA clusterB : C) multiTouch c0 c1 :
  f_ltb (distance (pt 0 0) (pt 0 0)) (distance (pt 0 0) c1) = true ->
  centroidTracking clusterA clusterB [c0; c1]
                   (np_float32 (initial_center multiTouch)) =
  Some (clusterA, clusterB, [c0; c1]).
Proof.
  intros H. rewrite initial_center_rows.
  destruct (nearest (pt 0 0) [c0; c1; pt 0 0]) as [[|[|[|k]]]|] eqn:Hk.
  - apply (keep_when_different _ _ _ _ _ _ 0%nat c0 Hk eq_refl).
    destruct (all_eq c0 c1) eqn:E; [|reflexivity]. exfalso.
    revert Hk. unfold nearest. cbn [map]. rewrite argmin3.
    rewrite (all_eq_distance (pt 0 0) _ _ E), f_ltb_irrefl, H.
    repeat case_match; discriminate.
  - exfalso. revert Hk. unfold nearest. cbn [map]. rewrite argmin3.
    rewrite H. repeat case_match; discriminate.
  - apply (keep_when_different _ _ _ _ _ _ 2%nat (pt 0 0) Hk eq_refl).
    destruct (all_eq (pt 0 0) c1) eqn:E; [|reflexivity].
    rewrite (all_eq_distance (pt 0 0) _ _ E), f_ltb_irrefl in H. discriminate.
  - exfalso. revert Hk. unfold nearest. cbn [map]. rewrite argmin3.
    repeat case_match; discriminate.
  - exfalso. revert Hk. unfold nearest. cbn [map]. rewrite argmin3.
    rewrite (f_ltb_inf _ _ H). repeat case_match; discriminate.
Qed.

(** X12. What [centroidTracking] returns are the caller's own objects.  On
    a store where [center] and [previousCenter] are arrays of two rows, the
    clusters returned are the two references received, and the centres
    returned are either the very array received (no swap) or a new list,
    the next object of the store, whose two elements are the caller's two
    row objects in reverse order: no row is copied. *)
Theorem centroidTracking_store_aliases (s : list Obj) clusterA clusterB
    lc r0 r1 c0 c1 lp q0 q1 p0 p1 :
  s !! lc = Some (OSeq [VRef r0; VRef r1]) ->
  s !! r0 = Some (ORow c0) ->
  s !! r1 = Some (ORow c1) ->
  s !! lp = Some (OSeq [VRef q0; VRef q1]) ->
  s !! q0 = Some (ORow p0) ->
  s !! q1 = Some (ORow p1) ->
  exists more,
    centroidTracking_store clusterA clusterB (VRef lc) (VRef lp) s =
      (Ok (clusterA, clusterB, VRef lc), s ++ more) \/
    (centroidTracking_store clusterA clusterB (VRef lc) (VRef lp) s =
       (Ok (clusterB, clusterA, VRef (length s + 3)), s ++ more) /\
     (s ++ more) !! (length s + 3)%nat = Some (OSeq [VRef r1; VRef r0])).
Proof.
  intros Hlc Hr0 Hr1 Hlp Hq0 Hq1.
  unfold centroidTracking_store.
  erewrite bind_ok by apply new_first.
  do 7 run.
  destruct (for_each_run s lp q0 q1 p0 (OSeq [VRef r0; VRef r1; VRef q1])
              (ORow (mkPoint (f32_of_Z 0) (f32_of_Z 0))) Hlp Hq0
              [r0; r1; q1] [c0; c1; p1]
              ltac:(repeat constructor; assumption)
              [] inf (VRef (length s + 2)) (mkPoint (f32_of_Z 0) (f32_of_Z 0)))
    as (m' & l' & v' & c' & Hrun & Hfold & Hv').
  { unfold read_row. now rewrite lookup_new. }
  cbn [map] in Hrun. erewrite bind_ok by exact Hrun. cbn [snd].
  run.
  assert (Hrow : row v' (s ++ [OSeq [VRef r0; VRef r1; VRef q1];
                               OSeq (map VFloat l');
                               ORow (mkPoint (f32_of_Z 0) (f32_of_Z 0))]) =
                 (Ok c', s ++ [OSeq [VRef r0; VRef r1; VRef q1];
                               OSeq (map VFloat l');
                               ORow (mkPoint (f32_of_Z 0) (f32_of_Z 0))])).
  { revert Hv'. unfold read_row, row. destruct v' as [|lv]; [discriminate|].
    destruct (_ !! lv) as [[p|]|]; try discriminate. now intros [= ->]. }
  erewrite bind_ok
    by (eapply all_eq_at_run; [exact Hrow | eapply row_old; exact Hr1]).
  destruct (all_eq c' c1).
  - do 3 run. unfold ret. eexists. right. split; [reflexivity|].
    now rewrite lookup_new.
  - unfold ret. eexists. left. reflexivity.
Qed.

End MoreTracking.

(* ===================================================================== *)
(** ** [mqttService.py]: [on_message] *)
(* ===================================================================== *)

Lemma split_length sep s :
  length (split sep s) = S (count_occ N.eq_dec s sep).
Proof.
  induction s as [|c s IH]; [reflexivity|]. cbn [split count_occ].
  destruct (N.eqb_spec c sep) as [->|Hne].
  - destruct (N.eq_dec sep sep); [|congruence]. simpl. now rewrite IH.
  - destruct (N.eq_dec c sep); [congruence|].
    destruct (split sep s); simpl in *; [discriminate | exact IH].
Qed.

Lemma split_no_sep sep s : count_occ N.eq_dec s sep = 0%nat -> split sep s = [s].
Proof.
  induction s as [|c s IH]; [reflexivity|]. cbn [split count_occ].
  destruct (N.eq_dec c sep) as [->|Hne]; [discriminate|].
  intros H. rewrite (IH H).
  destruct (N.eqb_spec c sep); [congruence | reflexivity].
Qed.

Lemma split_one sep s e :
  split sep s = [e] -> s = e /\ count_occ N.eq_dec s sep = 0%nat.
Proof.
  intros H. pose proof (split_length sep s) as Hl. rewrite H in Hl.
  simpl in Hl. assert (Hc : count_occ N.eq_dec s sep = 0%nat) by lia.
  rewrite (split_no_sep sep s Hc) in H. injection H as <-. auto.
Qed.

Lemma split_two sep s : forall m e,
  split sep s = [m; e] ->
  s = m ++ sep :: e /\
  count_occ N.eq_dec m sep = 0%nat /\ count_occ N.eq_dec e sep = 0%nat.
Proof.
  induction s as [|c s IH]; intros m e; [discriminate|]. cbn [split].
  destruct (N.eqb_spec c sep) as [->|Hne].
  - intros [= <- H]. apply split_one in H as [-> Hc]. auto.
  - destruct (split sep s) as [|piece pieces] eqn:Hs; [discriminate|].
    intros [= <- ->]. destruct (IH piece e eq_refl) as (-> & Hm & He).
    repeat split; auto. cbn [count_occ].
    destruct (N.eq_dec c sep); [congruence | exact Hm].
Qed.

Section MqttFacts.
Variable decode : list Z -> option (list N).

(** X16. [on_message] accepts exactly the texts with one comma.  Then the
    text is [mood], a comma, [engagement], neither holding a comma; both
    are stored, [state] is kept and the thread sleeps [updateService]
    seconds.  With no comma or more than one, unpacking raises
    [ValueError] and nothing is stored or slept. *)
Theorem on_message_parses payload text w :
  decode payload = Some text ->
  (count_occ N.eq_dec text comma = 1%nat ->
   exists m e,
     text = m ++ comma :: e /\
     count_occ N.eq_dec m comma = 0%nat /\
     count_occ N.eq_dec e comma = 0%nat /\
     on_message decode payload w =
       (Done tt,
        mkSubscriber (mkMQTTService (state (mqttServ w)) (Some m) (Some e))
                     (slept w ++ [updateService]))) /\
  (count_occ N.eq_dec text comma <> 1%nat ->
   on_message decode payload w = (Fail PyValueError, w)).
Proof.
  intros Hd. unfold on_message. rewrite Hd.
  pose proof (split_length comma text) as Hl.
  split; intros Hc.
  - rewrite Hc in Hl.
    destruct (split comma text) as [|m [|e [|x rest]]] eqn:Hs; try discriminate.
    destruct (split_two comma text m e Hs) as (Ht & Hm & He).
    exists m, e. auto.
  - destruct (split comma text) as [|m [|e [|x rest]]] eqn:Hs; try reflexivity.
    simpl in Hl. lia.
Qed.

(** [on_message] never changes the counter [state], and it does not
    matter whether [update] runs before or after it: the outcome and the
    final service are the same. *)
Lemma on_message_keeps_the_counter payload w :
  state (mqttServ (snd (on_message decode payload w))) = state (mqttServ w) /\
  on_message decode payload (mkSubscriber (update (mqttServ w)) (slept w)) =
    (fst (on_message decode payload w),
     mkSubscriber (update (mqttServ (snd (on_message decode payload w))))
                  (slept (snd (on_message decode payload w)))).
Proof.
  unfold on_message.
  destruct (decode payload) as [text|]; [|split; reflexivity].
  destruct (split comma text) as [|m [|e [|x rest]]]; split; reflexivity.
Qed.
End MqttFacts.

(* ===================================================================== *)
(** ** The further statements on concrete data *)
(* ===================================================================== *)

(** With the test doubles: the square is [exact_squares], pygame is
    [stub_pygame]. *)
Section FurtherExamples.
#[local] Existing Instance exact_squares.
#[local] Existing Instance stub_pygame.

Lemma contour_pixels_are_drawn_witness :
  fst (contourClustering (cv := stub_cv2) [row_contour 3] default_criteria 2
         true (stub_world [])) =
    Ok ([pt 0 7; pt 1 7; pt 2 7], [], [pt 0 7; pt 0 7], f64_of_Z 0) /\
  Forall exact_pixel (contourCoordinates [row_contour 3]) /\
  exists pixelsA pixelsB,
    sublist pixelsA (contourCoordinates [row_contour 3]) /\
    sublist pixelsB (contourCoordinates [row_contour 3]) /\
    [pt 0 7; pt 1 7; pt 2 7] = np_float32 pixelsA /\
    [] = np_float32 pixelsB /\
    displayContours (F := unit)
      [IPoints []; IPoints []; IPoints [pt 0 7; pt 1 7; pt 2 7]; IPoints []]
      true true [] =
    (Done tt,
     [] ++ map (fun p => Circle RED p 1) pixelsA ++
     map (fun p => Circle BLUE p 1) pixelsB).
Proof.
  assert (Hrun : fst (contourClustering (cv := stub_cv2) [row_contour 3]
                        default_criteria 2 true (stub_world [])) =
                 Ok ([pt 0 7; pt 1 7; pt 2 7], [], [pt 0 7; pt 0 7],
                     f64_of_Z 0)) by (vm_compute; reflexivity).
  assert (Hex : Forall exact_pixel (contourCoordinates [row_contour 3])).
  { repeat constructor; simpl; lia. }
  split; [exact Hrun | split; [exact Hex |]].
  exact (contour_pixels_are_drawn (F := unit) (cv := stub_cv2)
           [row_contour 3] default_criteria 2 true (stub_world [])
           [pt 0 7; pt 1 7; pt 2 7] [] [pt 0 7; pt 0 7] (f64_of_Z 0)
           [IPoints []; IPoints []; IPoints [pt 0 7; pt 1 7; pt 2 7];
            IPoints []] [] Hrun Hex eq_refl eq_refl).
Defined.

Lemma display_layout_witness :
  Forall (fun p => drawable p = true) [pt 3 4] /\
  Forall (fun p => drawable p = true) [pt 8 9] /\
  drawable (pt 3 4) = true /\
  drawable (pt 8 9) = true /\
  radius_ok 25 = true /\
  displayContours (F := Z)
    (layout (IPoints []) (IPoints []) true true [pt 3 4] [pt 8 9]
            [pt 3 4; pt 8 9] [0; 1; 2; 3; 4; 5]) true true [] =
    (Done tt,
     [] ++ map (circle_of RED 1) [pt 3 4] ++ map (circle_of BLUE 1) [pt 8 9]) /\
  displayCentroid (F := Z)
    (layout (IPoints []) (IPoints []) true true [pt 3 4] [pt 8 9]
            [pt 3 4; pt 8 9] [0; 1; 2; 3; 4; 5]) true true 25 true [] =
    (Done tt, [] ++ [circle_of GOLD 25 (pt 3 4); circle_of GOLD 25 (pt 8 9)]) /\
  displayAllFrames (F := Z)
    (layout (IPoints []) (IPoints []) true true [pt 3 4] [pt 8 9]
            [pt 3 4; pt 8 9] [0; 1; 2; 3; 4; 5]) true true true [] =
    (Done tt,
     [] ++ [Imshow "Frame0: Raw" 0; Imshow "Frame1: Gray" 1;
            Imshow "Frame2: Blur" 2; Imshow "Frame3: Delta" 3;
            Imshow "Frame4: Threshold" 4; Imshow "Frame5: Dialated" 5]).
Proof.
  assert (HA : Forall (fun p => drawable p = true) [pt 3 4])
    by (repeat constructor).
  assert (HB : Forall (fun p => drawable p = true) [pt 8 9])
    by (repeat constructor).
  split; [exact HA | split; [exact HB | split; [reflexivity |
    split; [reflexivity | split; [reflexivity |]]]]].
  exact (display_layout (F := Z) (IPoints []) (IPoints []) true true true
           [pt 3 4] [pt 8 9] (pt 3 4) (pt 8 9) [] 0 1 2 3 4 5 25 []
           HA HB eq_refl eq_refl eq_refl).
Defined.

Lemma displayCentroid_one_row_witness :
  [IPoints []; IPoints []; IPoints [pt 3 4]] !! 2%nat =
    Some (IPoints (F := unit) [pt 3 4]) /\
  drawable (pt 3 4) = true /\
  radius_ok 25 = true /\
  displayCentroid (F := unit) [IPoints []; IPoints []; IPoints [pt 3 4]]
                  false true 25 false [] =
    (Done tt, [] ++ [circle_of GOLD 25 (pt 3 4)]) /\
  displayCentroid (F := unit) [IPoints []; IPoints []; IPoints [pt 3 4]]
                  false true 25 true [] =
    (Fail PyIndexError, [] ++ [circle_of GOLD 25 (pt 3 4)]).
Proof.
  split; [reflexivity | split; [reflexivity | split; [reflexivity |]]].
  exact (displayCentroid_one_row (F := unit)
           [IPoints []; IPoints []; IPoints [pt 3 4]] false 25 (pt 3 4) []
           eq_refl eq_refl eq_refl).
Defined.

Lemma displayInput_second_touch_witness :
  drawable (pt 3 4) = true /\
  radius_ok 25 = true /\
  displayInput (F := unit) (pt 3 4) None 25 false [] =
    (Done tt, [] ++ [circle_of RED 25 (pt 3 4)]) /\
  displayInput (F := unit) (pt 3 4) None 25 true [] =
    (Fail PyTypeError, [] ++ [circle_of RED 25 (pt 3 4)]) /\
  (forall b, drawable b = true ->
     displayInput (F := unit) (pt 3 4) (Some b) 25 true [] =
     (Done tt, [] ++ [circle_of RED 25 (pt 3 4); circle_of BLUE 25 b])).
Proof.
  split; [reflexivity | split; [reflexivity |]].
  exact (displayInput_second_touch (F := unit) (pt 3 4) None 25 []
           eq_refl eq_refl).
Defined.

Lemma centroidTracking_needs_two_rows_witness :
  ((length [pt 3 4] < 2)%nat \/ (length [pt 0 0; pt 0 0] < 2)%nat) /\
  centroidTracking [pt 3 3; pt 3 5] ([] : list Point) [pt 3 4]
                   [pt 0 0; pt 0 0] = None.
Proof.
  assert (H : (length [pt 3 4] < 2)%nat \/ (length [pt 0 0; pt 0 0] < 2)%nat)
    by (left; simpl; lia).
  split; [exact H |].
  exact (centroidTracking_needs_two_rows [pt 3 3; pt 3 5]
           ([] : list Point) [pt 3 4] [pt 0 0; pt 0 0] H).
Defined.

Lemma stationary_touches_keep_identity_witness :
  f_ltb (distance (pt 1 1) (pt 1 1)) (distance (pt 1 1) (pt 9 9)) = true /\
  centroidTracking [pt 1 0; pt 1 2] [pt 9 8; pt 9 10]
                   [pt 1 1; pt 9 9] [pt 1 1; pt 9 9] =
    Some ([pt 1 0; pt 1 2], [pt 9 8; pt 9 10], [pt 1 1; pt 9 9]) /\
  centroidTracking [pt 1 0; pt 1 2] [pt 9 8; pt 9 10]
                   [pt 9 9; pt 1 1] [pt 1 1; pt 9 9] =
    Some ([pt 9 8; pt 9 10], [pt 1 0; pt 1 2], [pt 1 1; pt 9 9]).
Proof.
  assert (H : f_ltb (distance (pt 1 1) (pt 1 1)) (distance (pt 1 1) (pt 9 9))
              = true) by (vm_compute; reflexivity).
  split; [exact H |].
  exact (stationary_touches_keep_identity [pt 1 0; pt 1 2] [pt 9 8; pt 9 10]
           (pt 1 1) (pt 9 9) H).
Defined.

Lemma first_frame_keeps_labels_witness :
  f_ltb (distance (pt 0 0) (pt 0 0)) (distance (pt 0 0) (pt 1 1)) = true /\
  centroidTracking [pt 9 8; pt 9 10] [pt 1 0; pt 1 2] [pt 9 9; pt 1 1]
                   (np_float32 (initial_center true)) =
  Some ([pt 9 8; pt 9 10], [pt 1 0; pt 1 2], [pt 9 9; pt 1 1]).
Proof.
  assert (H : f_ltb (distance (pt 0 0) (pt 0 0)) (distance (pt 0 0) (pt 1 1))
              = true) by (vm_compute; reflexivity).
  split; [exact H |].
  exact (first_frame_keeps_labels [pt 9 8; pt 9 10] [pt 1 0; pt 1 2] true
           (pt 9 9) (pt 1 1) H).
Defined.

Lemma centroidTracking_store_aliases_witness :
  let s := [OSeq [VRef 1; VRef 2]; ORow (pt 9 9); ORow (pt 1 1);
            OSeq [VRef 4; VRef 5]; ORow (pt 0 0); ORow (pt 5 5);
            OSeq [VRef 1]; OSeq [VRef 2]] in
  exists more,
    centroidTracking_store (VRef 6) (VRef 7) (VRef 0) (VRef 3) s =
      (Ok (VRef 6, VRef 7, VRef 0), s ++ more) \/
    (centroidTracking_store (VRef 6) (VRef 7) (VRef 0) (VRef 3) s =
       (Ok (VRef 7, VRef 6, VRef (length s + 3)), s ++ more) /\
     (s ++ more) !! (length s + 3)%nat = Some (OSeq [VRef 2; VRef 1])).
Proof.
  exact (centroidTracking_store_aliases
           [OSeq [VRef 1; VRef 2]; ORow (pt 9 9); ORow (pt 1 1);
            OSeq [VRef 4; VRef 5]; ORow (pt 0 0); ORow (pt 5 5);
            OSeq [VRef 1]; OSeq [VRef 2]]
           (VRef 6) (VRef 7) 0 1 2 (pt 9 9) (pt 1 1) 3 4 5 (pt 0 0) (pt 5 5)
           eq_refl eq_refl eq_refl eq_refl eq_refl eq_refl).
Defined.

Lemma clusters_partition_points_witness :
  cv_kmeans (Cv2 := stub_cv2) (ext (stub_world []))
            (np_float32 (contourCoordinates [row_contour 3])) 2
            default_criteria 10 KMEANS_RANDOM_CENTERS =
    (Some (f64_of_Z 0, [0; 0; 0], [pt 0 7; pt 0 7]), []) /\
  fst (contourClustering (cv := stub_cv2) [row_contour 3] default_criteria 2
         true (stub_world [])) =
    Ok ([pt 0 7; pt 1 7; pt 2 7], [], [pt 0 7; pt 0 7], f64_of_Z 0) /\
  Forall (fun l => l = 0 \/ l = 1) [0; 0; 0] /\
  sublist [pt 0 7; pt 1 7; pt 2 7]
          (np_float32 (contourCoordinates [row_contour 3])) /\
  sublist [] (np_float32 (contourCoordinates [row_contour 3])) /\
  [pt 0 7; pt 1 7; pt 2 7] ++ [] ≡ₚ
    np_float32 (contourCoordinates [row_contour 3]) /\
  Z.of_nat (length [pt 0 7; pt 1 7; pt 2 7]) + Z.of_nat (length ([] : list Point)) =
    total_points [row_contour 3].
Proof.
  assert (Hk : cv_kmeans (Cv2 := stub_cv2) (ext (stub_world []))
                 (np_float32 (contourCoordinates [row_contour 3])) 2
                 default_criteria 10 KMEANS_RANDOM_CENTERS =
               (Some (f64_of_Z 0, [0; 0; 0], [pt 0 7; pt 0 7]), []))
    by reflexivity.
  assert (Hrun : fst (contourClustering (cv := stub_cv2) [row_contour 3]
                        default_criteria 2 true (stub_world [])) =
                 Ok ([pt 0 7; pt 1 7; pt 2 7], [], [pt 0 7; pt 0 7],
                     f64_of_Z 0)) by (vm_compute; reflexivity).
  assert (Hf : Forall (fun l => l = 0 \/ l = 1) [0; 0; 0])
    by (repeat constructor; auto).
  split; [exact Hk | split; [exact Hrun | split; [exact Hf |]]].
  destruct (clusters_partition_points (cv := stub_cv2) [row_contour 3]
              default_criteria 2 (stub_world []) [pt 0 7; pt 1 7; pt 2 7] []
              [pt 0 7; pt 0 7] (f64_of_Z 0) [0; 0; 0] [] Hk Hrun)
    as (HsA & HsB & Hp).
  split; [exact HsA | split; [exact HsB | exact (Hp Hf)]].
Defined.

Lemma identical_frames_give_zero_delta_witness :
  cv_read (Cv2 := stub_cv2) tt
          (ext (stub_world [[[10; 20]; [30; 40]]; [[10; 20]; [30; 40]]])) =
    (Some [[10; 20]; [30; 40]], [[[10; 20]; [30; 40]]]) /\
  cv_read (Cv2 := stub_cv2) tt [[[10; 20]; [30; 40]]] =
    (Some [[10; 20]; [30; 40]], []) /\
  exists master w1 contours hierarchy frames w2,
    imageProcessing (cv := stub_cv2) tt None
      (stub_world [[[10; 20]; [30; 40]]; [[10; 20]; [30; 40]]]) =
      (Ok (Some master, None, None, None, "continue"%string), w1) /\
    imageProcessing (cv := stub_cv2) tt (Some master) w1 =
      (Ok (Some master, Some contours, Some hierarchy, Some frames,
           "None"%string), w2) /\
    frame3 frames = map (map (fun _ => 0)) master.
Proof.
  split; [reflexivity | split; [reflexivity |]].
  exact (identical_frames_give_zero_delta (cv := stub_cv2) tt
           (stub_world [[[10; 20]; [30; 40]]; [[10; 20]; [30; 40]]])
           [[10; 20]; [30; 40]] [[10; 20]; [30; 40]]
           [[[10; 20]; [30; 40]]] [] eq_refl eq_refl eq_refl).
Defined.

(** The payload [b"5,7"] and the payload [b"5,7,9"]. *)
Lemma on_message_parses_witness :
  ascii_decode [53; 44; 55] = Some [53; 44; 55]%N /\
  on_message ascii_decode [53; 44; 55]
             (mkSubscriber MQTTService_init []) =
    (Done tt,
     mkSubscriber (mkMQTTService 1 (Some [53%N]) (Some [55%N])) [10]) /\
  on_message ascii_decode [53; 44; 55; 44; 57]
             (mkSubscriber MQTTService_init []) =
    (Fail PyValueError, mkSubscriber MQTTService_init []).
Proof.
  split; [reflexivity |].
  destruct (on_message_parses ascii_decode [53; 44; 55] [53; 44; 55]%N
              (mkSubscriber MQTTService_init []) eq_refl) as [Hone _].
  destruct (on_message_parses ascii_decode [53; 44; 55; 44; 57]
              [53; 44; 55; 44; 57]%N
              (mkSubscriber MQTTService_init []) eq_refl) as [_ Hmany].
  split; [reflexivity |].
  apply Hmany. vm_compute. discriminate.
Defined.
End FurtherExamples.
